(** * rostful: message_conversion.py

    A shallow embedding of [src/rostful/src/rostful/message_conversion.py],
    the marshaller between generated ROS message instances and JSON-shaped
    Python values, and of its class registry.

    - The module is read with Python 3 semantics, which its tables are
      written for ([string_types = [str, bytes]], no [long] among the
      primitive types): [str] and [bytes] are two types, [int] is unbounded,
      dictionaries iterate in insertion order.
    - Exceptions are values; a function that can raise returns an [outcome].
    - The module's globals, the clock and the log of loads are a [world] that
      is passed along.
    - An instance owns the objects in its slots, as the generated classes
      build them, so a value is the whole tree of an object.  The deserializer
      works on its target in place: a call hands back the state it left the
      target in together with what it returns or raises. *)

From Stdlib Require Import ZArith NArith String Ascii List Bool Lia.
From Stdlib.Strings Require Import Byte.
From stdpp Require Import base option list strings gmap.

Set Warnings "-register-all".

Local Open Scope string_scope.
Local Open Scope list_scope.

(** ** Exceptions and outcomes *)

(** The exception classes of the module, each carrying the arguments its
    constructor received, and the built-in ones its code can run into.
    [ForeignError] is an exception raised by a collaborator (roslib, the
    import machinery); [message] is its [.message] attribute when it has
    one. *)
Inductive exn : Type :=
| InvalidMessageException (inst_type : string)
| NonexistentFieldException (basetype : string) (fields : list string)
| FieldTypeMismatchException (roottype : string) (fields : list string)
                             (expected_type found_type : string)
| InvalidTypeStringException (typestring : string)
| InvalidPackageException (package : string) (original_exception : exn)
| InvalidModuleException (modname subname : string) (original_exception : exn)
| InvalidClassException (modname subname classname : string)
                        (original_exception : exn)
| TypeError (what : string)
| AttributeError (name : string)
| KeyError (key : string)
| ValueError (what : string)
| ForeignError (name : string) (message : option string).

Inductive outcome (A : Type) : Type :=
| Return (a : A)
| Raise (e : exn).
Arguments Return {A} a.
Arguments Raise {A} e.

(** State that survives a raise: what a call did to the world before it
    raised stays done. *)
Definition M (S A : Type) : Type := S -> outcome A * S.

#[global] Instance outcome_ret : MRet outcome := fun _ a => Return a.
#[global] Instance outcome_bind : MBind outcome := fun _ _ k m =>
  match m with
  | Return a => k a
  | Raise e => Raise e
  end.

#[global] Instance outcome_fmap : FMap outcome := fun _ _ f m =>
  match m with
  | Return a => Return (f a)
  | Raise e => Raise e
  end.

#[global] Instance M_ret {S} : MRet (M S) := fun _ a s => (Return a, s).
#[global] Instance M_bind {S} : MBind (M S) := fun _ _ k m s =>
  match m s with
  | (Return a, s') => k a s'
  | (Raise e, s') => (Raise e, s')
  end.

Definition raise {S A} (e : exn) : M S A := fun s => (Raise e, s).
Definition get {S} : M S S := fun s => (Return s, s).
Definition modify {S} (f : S -> S) : M S unit := fun s => (Return tt, f s).
Definition lift {S A} (o : outcome A) : M S A := fun s => (o, s).

(** ** Strings *)

(** [s.split(sep)] for a one-character separator. *)
Fixpoint str_split (sep : ascii) (s : string) : list string :=
  match s with
  | EmptyString => [EmptyString]
  | String c s' =>
      if Ascii.eqb c sep then EmptyString :: str_split sep s'
      else match str_split sep s' with
           | [] => [String c EmptyString]
           | w :: ws => String c w :: ws
           end
  end.

Definition nonempty (s : string) : bool :=
  match s with EmptyString => false | String _ _ => true end.

(** [c in s] for a character. *)
Fixpoint has_char (c : ascii) (s : string) : bool :=
  match s with
  | EmptyString => false
  | String c' s' => Ascii.eqb c' c || has_char c s'
  end.

(** [x in l] for a list of strings. *)
Definition py_in (x : string) (l : list string) : bool := bool_decide (x ∈ l).

(** ** Python values *)

(** What the conversion reads off the class of an instance: its name, the
    [_type] tag, [__slots__] and [_slot_types].  A generated message class has
    all of them; [rospy.rostime.Time] and [Duration] have [__slots__] only. *)
Record classinfo : Type := ClassInfo {
  cls_name : string;
  _type : option string;
  __slots__ : list string;
  _slot_types : option (list string);
}.

(** The values the conversion handles.  A dictionary lists its items in
    iteration order (keys are text, as in JSON, and distinct); an instance
    lists the values of its slots.  A float is its 64-bit pattern: the code
    only passes floats along. *)
Inductive pyval : Type :=
| PyNone
| PyBool (b : bool)
| PyInt (z : Z)
| PyFloat (bits : Z)
| PyStr (s : string)
| PyBytes (b : list Byte.byte)
| PyList (l : list pyval)
| PyTuple (l : list pyval)
| PyDict (items : list (string * pyval))
| PyInst (c : classinfo) (attrs : list (string * pyval)).

(** [type(v).__name__] *)
Definition type_name (v : pyval) : string :=
  match v with
  | PyNone => "NoneType"
  | PyBool _ => "bool"
  | PyInt _ => "int"
  | PyFloat _ => "float"
  | PyStr _ => "str"
  | PyBytes _ => "bytes"
  | PyList _ => "list"
  | PyTuple _ => "tuple"
  | PyDict _ => "dict"
  | PyInst c _ => cls_name c
  end.

(** Association lists: first binding of a key, and assignment in place. *)
Fixpoint assoc {A} (k : string) (l : list (string * A)) : option A :=
  match l with
  | [] => None
  | (k', v) :: l' => if String.eqb k k' then Some v else assoc k l'
  end.

Fixpoint assoc_set {A} (k : string) (v : A) (l : list (string * A))
  : list (string * A) :=
  match l with
  | [] => [(k, v)]
  | (k', v') :: l' =>
      if String.eqb k k' then (k, v) :: l' else (k', v') :: assoc_set k v l'
  end.

(** [getattr(inst, name)] for a slot. *)
Definition getattr (inst : pyval) (name : string) : outcome pyval :=
  match inst with
  | PyInst _ attrs =>
      match assoc name attrs with
      | Some v => Return v
      | None => Raise (AttributeError name)
      end
  | _ => Raise (AttributeError name)
  end.

(** [setattr(inst, name, v)]: an instance with [__slots__] takes the names of
    its slots only; the values of the other kinds take none. *)
Definition setattr (inst : pyval) (name : string) (v : pyval) : outcome pyval :=
  match inst with
  | PyInst c attrs =>
      if py_in name (__slots__ c) then Return (PyInst c (assoc_set name v attrs))
      else Raise (AttributeError name)
  | _ => Raise (AttributeError name)
  end.

(** [getattr(inst, "_type", None)] *)
Definition getattr__type (inst : pyval) : option string :=
  match inst with
  | PyInst c _ => _type c
  | _ => None
  end.

(** [inst._type], [inst.__slots__], [inst._slot_types] *)
Definition attr__type (inst : pyval) : outcome string :=
  match getattr__type inst with
  | Some t => Return t
  | None => Raise (AttributeError "_type")
  end.

Definition attr__slots__ (inst : pyval) : outcome (list string) :=
  match inst with
  | PyInst c _ => Return (__slots__ c)
  | _ => Raise (AttributeError "__slots__")
  end.

Definition attr__slot_types (inst : pyval) : outcome (list string) :=
  match inst with
  | PyInst c _ =>
      match _slot_types c with
      | Some ts => Return ts
      | None => Raise (AttributeError "_slot_types")
      end
  | _ => Raise (AttributeError "_slot_types")
  end.

(** A class object: what its instances carry, and the slot values of a
    freshly constructed instance. *)
Record pyclass : Type := PyClass {
  cls_info : classinfo;
  cls_init : list (string * pyval);
}.

(** [cls()] *)
Definition new (cls : pyclass) : pyval := PyInst (cls_info cls) (cls_init cls).

(** [rospy.rostime.Time] and [rospy.rostime.Duration], and the classes of
    genpy they extend without adding a slot. *)
Definition Time_info : classinfo :=
  {| cls_name := "Time"; _type := None;
     __slots__ := ["secs"; "nsecs"]; _slot_types := None |}.
Definition Duration_info : classinfo :=
  {| cls_name := "Duration"; _type := None;
     __slots__ := ["secs"; "nsecs"]; _slot_types := None |}.

Definition Time (secs nsecs : pyval) : pyval :=
  PyInst Time_info [("secs", secs); ("nsecs", nsecs)].
Definition Duration (secs nsecs : pyval) : pyval :=
  PyInst Duration_info [("secs", secs); ("nsecs", nsecs)].

(** ** The standard library's base64

    [standard_b64encode] and [standard_b64decode] of Python's [base64], which
    the module imports: the alphabet of RFC 4648 with [=] padding, and the
    lenient decoder, which skips the characters outside the alphabet and stops
    at the padding that completes a group of four. *)
Module Base64.

Definition alphabet : list byte :=
  list_byte_of_string
    "ABCDEFGHIJKLMNOPQRSTUVWXYZabcdefghijklmnopqrstuvwxyz0123456789+/".

Definition pad : byte := "="%byte.

Definition b2a (i : N) : byte := nth (N.to_nat i) alphabet pad.

Fixpoint find_index (c : byte) (l : list byte) (i : N) : option N :=
  match l with
  | [] => None
  | x :: l' => if Byte.eqb c x then Some i else find_index c l' (N.succ i)
  end.

Definition a2b (c : byte) : option N := find_index c alphabet 0%N.

(** The low eight bits, as a byte. *)
Definition byte_of_N (n : N) : byte :=
  match Byte.of_N (n mod 256) with
  | Some b => b
  | None => x00
  end.

Local Open Scope N_scope.

Fixpoint b2a_base64 (data : list byte) : list byte :=
  match data with
  | [] => []
  | [x] =>
      let a := Byte.to_N x in
      [b2a (a / 4); b2a ((a mod 4) * 16); pad; pad]
  | [x; y] =>
      let a := Byte.to_N x in
      let b := Byte.to_N y in
      [b2a (a / 4); b2a ((a mod 4) * 16 + b / 16); b2a ((b mod 16) * 4); pad]
  | x :: y :: z :: rest =>
      let a := Byte.to_N x in
      let b := Byte.to_N y in
      let c := Byte.to_N z in
      b2a (a / 4) :: b2a ((a mod 4) * 16 + b / 16)
        :: b2a ((b mod 16) * 4 + c / 64) :: b2a (c mod 64)
        :: b2a_base64 rest
  end.

(** The decoder's loop: [quad_pos] is the position in the current group of
    four, [leftchar] the bits of the group not yet written out, [pads] the
    padding characters seen since the last character of the alphabet.  [None]
    is the library's error (a group left incomplete). *)
Fixpoint a2b_loop (data : list byte) (quad_pos : nat) (leftchar : N)
                  (pads : nat) : option (list byte) :=
  match data with
  | [] => match quad_pos with O => Some [] | _ => None end
  | ch :: rest =>
      if Byte.eqb ch pad then
        if Nat.leb 2 quad_pos then
          if Nat.leb 4 (quad_pos + S pads) then Some []
          else a2b_loop rest quad_pos leftchar (S pads)
        else a2b_loop rest quad_pos leftchar pads
      else
        match a2b ch with
        | None => a2b_loop rest quad_pos leftchar pads
        | Some v =>
            match quad_pos with
            | 0%nat => a2b_loop rest 1 v 0
            | 1%nat =>
                cons (byte_of_N (leftchar * 4 + v / 16))
                  <$> a2b_loop rest 2 (v mod 16) 0
            | 2%nat =>
                cons (byte_of_N (leftchar * 16 + v / 4))
                  <$> a2b_loop rest 3 (v mod 4) 0
            | _ =>
                cons (byte_of_N (leftchar * 64 + v))
                  <$> a2b_loop rest 0 0 0
            end
        end
  end.

Definition a2b_base64 (data : list byte) : option (list byte) :=
  a2b_loop data 0 0 0.

Definition is_ascii (b : byte) : bool := Byte.to_N b <? 128.

End Base64.

(** [standard_b64encode(s)] takes a bytes-like object only. *)
Definition standard_b64encode (s : pyval) : outcome pyval :=
  match s with
  | PyBytes b => Return (PyBytes (Base64.b2a_base64 b))
  | _ => Raise (TypeError "a bytes-like object is required")
  end.

(** [standard_b64decode(s)] takes bytes, or text made of ASCII characters. *)
Definition standard_b64decode (s : pyval) : outcome pyval :=
  match s with
  | PyStr t =>
      let data := list_byte_of_string t in
      if forallb Base64.is_ascii data then
        match Base64.a2b_base64 data with
        | Some b => Return (PyBytes b)
        | None => Raise (ForeignError "binascii.Error" None)
        end
      else Raise (ValueError "string argument should contain only ASCII characters")
  | PyBytes data =>
      match Base64.a2b_base64 data with
      | Some b => Return (PyBytes b)
      | None => Raise (ForeignError "binascii.Error" None)
      end
  | _ => Raise (TypeError "argument should be a bytes-like object or ASCII string")
  end.

(** [s.encode("ascii", "ignore")]: the characters outside ASCII are dropped. *)
Definition encode_ascii_ignore (s : string) : list byte :=
  filter (fun b => Is_true (Base64.is_ascii b)) (list_byte_of_string s).

(** ** The module's tables *)

Definition type_map : list (string * list string) :=
  [ ("bool", ["bool"]);
    ("int", ["int8"; "byte"; "uint8"; "char";
             "int16"; "uint16"; "int32"; "uint32";
             "int64"; "uint64"; "float32"; "float64"]);
    ("float", ["float32"; "float64"]);
    ("str", ["string"]);
    ("unicode", ["string"]);
    ("long", ["uint64"]) ].

(** [type_map[name]] *)
Definition type_map_get (name : string) : outcome (list string) :=
  match assoc name type_map with
  | Some l => Return l
  | None => Raise (KeyError name)
  end.

(** [type(v) in primitive_types], [string_types], [list_types] *)
Definition is_primitive_type (v : pyval) : bool :=
  match v with PyBool _ | PyInt _ | PyFloat _ => true | _ => false end.
Definition is_string_type (v : pyval) : bool :=
  match v with PyStr _ | PyBytes _ => true | _ => false end.
Definition is_list_type (v : pyval) : bool :=
  match v with PyList _ | PyTuple _ => true | _ => false end.

Definition ros_time_types : list string := ["time"; "duration"].
Definition ros_primitive_types : list string :=
  ["bool"; "byte"; "char"; "int8"; "uint8"; "int16";
   "uint16"; "int32"; "uint32"; "int64"; "uint64";
   "float32"; "float64"; "string"].
Definition ros_header_types : list string :=
  ["Header"; "std_msgs/Header"; "roslib/Header"].
Definition ros_binary_types : list string := ["uint8[]"; "char[]"].

(** [list_braces.sub("", s)] for [list_braces = re.compile(r'\[[^\]]*\]')]:
    every stretch from a [[] to the next []] is removed.  [held] is the text
    read since a [[] that has not met its []] yet; it stays when none
    comes. *)
Fixpoint braces_scan (held : option string) (s : string) : string :=
  match s with
  | EmptyString => match held with Some h => h | None => EmptyString end
  | String c s' =>
      match held with
      | None =>
          if Ascii.eqb c "[" then braces_scan (Some "[") s'
          else String c (braces_scan None s')
      | Some h =>
          if Ascii.eqb c "]" then braces_scan None s'
          else braces_scan (Some (String.append h (String c EmptyString))) s'
      end
  end.

Definition list_braces_sub (s : string) : string := braces_scan None s.

(** ** Serialization *)

(** [InvalidMessageException(inst)]: the constructor takes the instance. *)
Definition InvalidMessageException_new (args : list pyval) : outcome exn :=
  match args with
  | [inst] => Return (InvalidMessageException (type_name inst))
  | _ => Raise (TypeError "__init__() missing 1 required positional argument: 'inst'")
  end.

(** [msg[k] = v] on a dictionary under construction. *)
Definition dict_setitem (msg : list (string * pyval)) (k : string) (v : pyval)
  : list (string * pyval) := assoc_set k v msg.

(** [_from_list_inst] and [_from_object_inst] call back into [_from_inst],
    which they receive as [from_inst]. *)
Definition _from_list_inst_with (from_inst : pyval -> string -> outcome pyval)
    (inst : list pyval) (rostype : string) : outcome pyval :=
  if Nat.eqb (length inst) 0 then Return (PyList [])
  else
    let rostype := list_braces_sub rostype in
    if py_in rostype ros_primitive_types then Return (PyList inst)
    else PyList <$> mapM (fun x => from_inst x rostype) inst.

(** The loop of [_from_object_inst] over [zip(inst.__slots__,
    inst._slot_types)].  [from_attr field_name] stands for
    [getattr(inst, field_name)] followed by the call of [_from_inst] on the
    value found, still waiting for the field's type; it is [None] when the
    instance has no such attribute. *)
Fixpoint _from_object_fields
    (from_attr : string -> option (string -> outcome pyval))
    (fields : list (string * string)) (msg : list (string * pyval))
  : outcome (list (string * pyval)) :=
  match fields with
  | [] => Return msg
  | (field_name, field_rostype) :: rest =>
      match from_attr field_name with
      | None => Raise (AttributeError field_name)
      | Some from_field_inst =>
          v ← from_field_inst field_rostype;
          _from_object_fields from_attr rest (dict_setitem msg field_name v)
      end
  end.

Definition _from_object_inst_with
    (from_attr : string -> option (string -> outcome pyval))
    (inst : pyval) (rostype : string) : outcome pyval :=
  slots ← attr__slots__ inst;
  slot_types ← attr__slot_types inst;
  PyDict <$> _from_object_fields from_attr (zip slots slot_types) [].

Fixpoint _from_inst (inst : pyval) (rostype : string) {struct inst}
  : outcome pyval :=
  if py_in rostype ros_binary_types then standard_b64encode inst
  else if py_in rostype ros_time_types then
    secs ← getattr inst "secs";
    nsecs ← getattr inst "nsecs";
    Return (PyDict [("secs", secs); ("nsecs", nsecs)])
  else if py_in rostype ros_primitive_types then Return inst
  else
    match inst with
    | PyList l | PyTuple l => _from_list_inst_with _from_inst l rostype
    | PyInst c attrs =>
        _from_object_inst_with
          (fun name =>
             assoc name
               (map (fun '(n, field_inst) => (n, _from_inst field_inst)) attrs))
          inst rostype
    | _ => _from_object_inst_with (fun _ => None) inst rostype
    end.

Definition _from_list_inst (inst : list pyval) (rostype : string)
  : outcome pyval := _from_list_inst_with _from_inst inst rostype.

Definition _from_object_inst (inst : pyval) (rostype : string)
  : outcome pyval :=
  _from_object_inst_with
    (fun name => match getattr inst name with
                 | Return field_inst => Some (_from_inst field_inst)
                 | Raise _ => None
                 end)
    inst rostype.

Definition extract_values (inst : pyval) : outcome pyval :=
  match getattr__type inst with
  | None => e ← InvalidMessageException_new []; Raise e
  | Some rostype => _from_inst inst rostype
  end.

(** ** The world around the module *)

(** What Python's import machinery hands back for a package: its submodules,
    each with the classes it defines. *)
Abbreviation pypackage := (gmap string (gmap string pyclass)).

(** The collaborators: [rostime k] is what the [k]-th call of
    [rospy.get_rostime()] reads off the clock (secs, nsecs);
    [load_manifest pkg] is [roslib.launcher.load_manifest(pkg)];
    [import_ name] is [__import__(name)].  [can_allocate n] is whether the
    interpreter gets a block of [n] bytes when it asks for one; when it does
    not, it raises [MemoryError].  It matters where a number in the value
    sets the size: [bytearray(n)] and the text made of it. *)
Record rosenv : Type := RosEnv {
  rostime : nat -> Z * Z;
  load_manifest : string -> outcome unit;
  import_ : string -> outcome pypackage;
  can_allocate : Z -> bool;
}.

(** The module's globals, the number of clock reads so far and the calls of
    [_load_class] so far.  A lock is [true] while it is held. *)
Record world : Type := World {
  clock_reads : nat;
  _loaded_msgs : gmap string pyclass;
  _loaded_srvs : gmap string pyclass;
  _msgs_lock : bool;
  _srvs_lock : bool;
  load_calls : list (string * string * string);
}.

(** The state at import time. *)
Definition initial_world : world :=
  {| clock_reads := 0; _loaded_msgs := ∅; _loaded_srvs := ∅;
     _msgs_lock := false; _srvs_lock := false; load_calls := [] |}.

(** The two dictionaries and the two locks, as [_get_class] receives them. *)
Inductive cache_ref : Type := Loaded_msgs | Loaded_srvs.
Inductive lock_ref : Type := Msgs_lock | Srvs_lock.

Definition cache_of (cache : cache_ref) (w : world) : gmap string pyclass :=
  match cache with
  | Loaded_msgs => _loaded_msgs w
  | Loaded_srvs => _loaded_srvs w
  end.

Definition cache_setitem (cache : cache_ref) (key : string) (value : pyclass)
    (w : world) : world :=
  match cache with
  | Loaded_msgs =>
      {| clock_reads := clock_reads w;
         _loaded_msgs := <[key := value]> (_loaded_msgs w);
         _loaded_srvs := _loaded_srvs w;
         _msgs_lock := _msgs_lock w; _srvs_lock := _srvs_lock w;
         load_calls := load_calls w |}
  | Loaded_srvs =>
      {| clock_reads := clock_reads w;
         _loaded_msgs := _loaded_msgs w;
         _loaded_srvs := <[key := value]> (_loaded_srvs w);
         _msgs_lock := _msgs_lock w; _srvs_lock := _srvs_lock w;
         load_calls := load_calls w |}
  end.

Definition lock_set (lock : lock_ref) (held : bool) (w : world) : world :=
  match lock with
  | Msgs_lock =>
      {| clock_reads := clock_reads w;
         _loaded_msgs := _loaded_msgs w; _loaded_srvs := _loaded_srvs w;
         _msgs_lock := held; _srvs_lock := _srvs_lock w;
         load_calls := load_calls w |}
  | Srvs_lock =>
      {| clock_reads := clock_reads w;
         _loaded_msgs := _loaded_msgs w; _loaded_srvs := _loaded_srvs w;
         _msgs_lock := _msgs_lock w; _srvs_lock := held;
         load_calls := load_calls w |}
  end.

Definition lock_held (lock : lock_ref) (w : world) : bool :=
  match lock with
  | Msgs_lock => _msgs_lock w
  | Srvs_lock => _srvs_lock w
  end.

(** [lock.acquire()] and [lock.release()], on the one thread of the model. *)
Definition acquire (lock : lock_ref) : M world unit := modify (lock_set lock true).
Definition release (lock : lock_ref) : M world unit := modify (lock_set lock false).

Definition tick (w : world) : world :=
  {| clock_reads := S (clock_reads w);
     _loaded_msgs := _loaded_msgs w; _loaded_srvs := _loaded_srvs w;
     _msgs_lock := _msgs_lock w; _srvs_lock := _srvs_lock w;
     load_calls := load_calls w |}.

Definition log_load (call : string * string * string) (w : world) : world :=
  {| clock_reads := clock_reads w;
     _loaded_msgs := _loaded_msgs w; _loaded_srvs := _loaded_srvs w;
     _msgs_lock := _msgs_lock w; _srvs_lock := _srvs_lock w;
     load_calls := load_calls w ++ [call] |}.

(** ** The class registry *)

(** [InvalidPackageException(package, exc)] reads [exc.message]. *)
Definition exn_message (e : exn) : option string :=
  match e with
  | ForeignError _ m => m
  | _ => None
  end.

Definition InvalidPackageException_new (package : string) (original : exn)
  : outcome exn :=
  match exn_message original with
  | Some _ => Return (InvalidPackageException package original)
  | None => Raise (AttributeError "message")
  end.

(** [[x for x in typestring.split("/") if x]] *)
Definition splits (typestring : string) : list string :=
  filter (fun x => Is_true (nonempty x)) (str_split "/" typestring).

Definition _splittype (typestring : string) : outcome (list string) :=
  if Nat.eqb (length (splits typestring)) 2 then Return (splits typestring)
  else Raise (InvalidTypeStringException typestring).

Definition _add_to_cache (cache : cache_ref) (lock : lock_ref)
    (key : string) (value : pyclass) : M world unit :=
  acquire lock;;
  modify (cache_setitem cache key value);;
  release lock.

(** Python's [None] is [None] here. *)
Definition _get_from_cache (cache : cache_ref) (lock : lock_ref) (key : string)
  : M world (option pyclass) :=
  acquire lock;;
  w ← get;
  let ret := cache_of cache w !! key in
  release lock;;
  mret ret.

Section Registry.

Variable E : rosenv.

Definition _load_class (modname subname classname : string) : M world pyclass :=
  modify (log_load (modname, subname, classname));;
  match load_manifest E modname with
  | Raise exc => e ← lift (InvalidPackageException_new modname exc); raise e
  | Return _ =>
      match import_ E (modname +:+ "." +:+ subname) with
      | Raise exc => raise (InvalidModuleException modname subname exc)
      | Return pypkg =>
          match pypkg !! subname with
          | None =>
              raise (InvalidClassException modname subname classname
                       (AttributeError subname))
          | Some submodule =>
              match submodule !! classname with
              | None =>
                  raise (InvalidClassException modname subname classname
                           (AttributeError classname))
              | Some cls => mret cls
              end
          end
      end
  end.

Definition _get_class (typestring subname : string)
    (cache : cache_ref) (lock : lock_ref) : M world pyclass :=
  cls ← _get_from_cache cache lock typestring;
  match cls with
  | Some cls => mret cls
  | None =>
      splits ← lift (_splittype typestring);
      match splits with
      | [modname; classname] =>
          let norm_typestring := modname +:+ "/" +:+ classname in
          cls ← _get_from_cache cache lock norm_typestring;
          match cls with
          | Some cls => mret cls
          | None =>
              cls ← _load_class modname subname classname;
              _add_to_cache cache lock typestring cls;;
              _add_to_cache cache lock norm_typestring cls;;
              mret cls
          end
      | _ => raise (ValueError "too many values to unpack")
      end
  end.

Definition _get_msg_class (typestring : string) : M world pyclass :=
  _get_class typestring "msg" Loaded_msgs Msgs_lock.

Definition _get_srv_class (typestring : string) : M world pyclass :=
  _get_class typestring "srv" Loaded_srvs Srvs_lock.

End Registry.

(** ** Deserialization *)

(** [try: body except: handler] for the exceptions that [catches] accepts. *)
Definition try_except {S A} (body : M S A) (catches : exn -> bool)
    (handler : M S A) : M S A :=
  fun s => match body s with
           | (Raise e, s') => if catches e then handler s' else (Raise e, s')
           | r => r
           end.

Definition is_TypeError (e : exn) : bool :=
  match e with TypeError _ => true | _ => false end.

(** [bytearray(v)]: a count of zero bytes, when the interpreter gets room
    for them, or the bytes an iterable of small integers lists. *)
Definition bytearray_item (v : pyval) : outcome byte :=
  match v with
  | PyInt z =>
      if ((0 <=? z) && (z <? 256))%Z then Return (Base64.byte_of_N (Z.to_N z))
      else Raise (ValueError "byte must be in range(0, 256)")
  | PyBool b => Return (if b then x01 else x00)
  | _ => Raise (TypeError "object cannot be interpreted as an integer")
  end.

Definition bytearray (E : rosenv) (v : pyval) : outcome (list byte) :=
  match v with
  | PyBool b => Return (if b then [x00] else [])
  | PyInt z =>
      if (z <? 0)%Z then Raise (ValueError "negative count")
      else if (z <? 2 ^ 63)%Z then
        if can_allocate E z then Return (repeat x00 (Z.to_nat z))
        else Raise (ForeignError "MemoryError" None)
      else Raise (ForeignError "OverflowError" None)
  | PyBytes b => Return b
  | PyStr _ => Raise (TypeError "string argument without an encoding")
  | PyList l | PyTuple l => mapM bytearray_item l
  | PyDict items => mapM bytearray_item (PyStr <$> items.*1)
  | PyNone | PyFloat _ | PyInst _ _ =>
      Raise (TypeError "cannot convert object to bytearray")
  end.

(** [str(bytearray(...))]: in Python 3 the rendering [bytearray(b'...')].
    The quote around the bytes is the single one, unless the bytes hold a
    single quote and no double one; a single quote and a backslash among the
    bytes are written after a backslash whatever the quote around them, a
    double quote never is. *)
Definition hex_digit (n : N) : ascii :=
  match String.get (N.to_nat n) "0123456789abcdef" with
  | Some c => c
  | None => "0"%char
  end.

Definition repr_byte (b : byte) : string :=
  let n := Byte.to_N b in
  if Byte.eqb b "'"%byte || Byte.eqb b "\"%byte
  then String "\" (String (ascii_of_byte b) EmptyString)
  else if (n =? 9)%N then "\t"
  else if (n =? 10)%N then "\n"
  else if (n =? 13)%N then "\r"
  else if ((n <? 32) || (127 <=? n))%N
  then String "\" (String "x" (String (hex_digit (n / 16))
                                  (String (hex_digit (n mod 16)) EmptyString)))
  else String (ascii_of_byte b) EmptyString.

Definition str_bytearray (b : list byte) : string :=
  let quote : byte :=
    if existsb (Byte.eqb "'"%byte) b && negb (existsb (Byte.eqb x22) b)
    then x22 else "'"%byte in
  let q := String (ascii_of_byte quote) EmptyString in
  "bytearray(b" +:+ q +:+ String.concat "" (repr_byte <$> b) +:+ q +:+ ")".

(** The rendering asks for a buffer of four bytes for each byte and fifteen
    around them, and then for the text itself. *)
Definition repr_bytearray (E : rosenv) (b : list byte) : outcome string :=
  let text := str_bytearray b in
  if can_allocate E (4 * Z.of_nat (length b) + 15)
     && can_allocate E (Z.of_nat (String.length text))
  then Return text
  else Raise (ForeignError "MemoryError" None).

Definition _to_binary_inst (E : rosenv) (msg : pyval) : outcome pyval :=
  if is_string_type msg then
    match standard_b64decode msg with
    | Return v => Return v
    | Raise _ => Return msg
    end
  else
    match bytearray E msg ≫= repr_bytearray E with
    | Return text => Return (PyStr text)
    | Raise _ => Return msg
    end.

(** [field in msg] and [msg[field]] for a text [field]. *)
Fixpoint is_substring (needle hay : string) : bool :=
  String.prefix needle hay
  || match hay with
     | EmptyString => false
     | String _ hay' => is_substring needle hay'
     end.

Definition is_str (s : string) (v : pyval) : bool :=
  match v with PyStr t => String.eqb t s | _ => false end.

Definition py_contains (field : string) (msg : pyval) : outcome bool :=
  match msg with
  | PyDict items => Return (bool_decide (is_Some (assoc field items)))
  | PyStr s => Return (is_substring field s)
  | PyList l | PyTuple l => Return (existsb (is_str field) l)
  | PyBytes _ => Raise (TypeError "a bytes-like object is required, not 'str'")
  | _ => Raise (TypeError "argument is not iterable")
  end.

Definition py_getitem (msg : pyval) (field : string) : outcome pyval :=
  match msg with
  | PyDict items =>
      match assoc field items with
      | Some v => Return v
      | None => Raise (KeyError field)
      end
  | PyStr _ | PyBytes _ | PyList _ | PyTuple _ =>
      Raise (TypeError "indices must be integers")
  | _ => Raise (TypeError "object is not subscriptable")
  end.

Definition is_none (v : pyval) : bool :=
  match v with PyNone => true | _ => false end.

(** An instance that is being filled in is the state: what was assigned stays
    assigned when a later step raises. *)
Definition assign (name : string) (v : pyval) : M pyval unit :=
  fun inst => match setattr inst name v with
              | Return inst' => (Return tt, inst')
              | Raise e => (Raise e, inst)
              end.

Section Deserializer.

Variable E : rosenv.

(** [rospy.get_rostime()] *)
Definition get_rostime : M world pyval :=
  fun w => let '(secs, nsecs) := rostime E (clock_reads w) in
           (Return (Time (PyInt secs) (PyInt nsecs)), tick w).

(** The body of the loop of [_to_time_inst]. *)
Definition _to_time_field (msg : pyval) (field : string) : M pyval unit :=
  try_except
    (present ← lift (py_contains field msg);
     if (present : bool) then
       v ← lift (py_getitem msg field);
       assign field v
     else mret tt)
    is_TypeError
    (mret tt).

(** A deserializing call gives what it returns or raises, the state it leaves
    the object passed as [inst] in, and the world. *)
Definition _to_time_inst (msg : pyval) (rostype : string) (inst : pyval)
    (w : world) : outcome pyval * (pyval * world) :=
  if String.eqb rostype "time" && is_str "now" msg then
    let '(now, w') := get_rostime w in (now, (inst, w'))
  else
    let fill (obj : pyval) : outcome pyval * pyval :=
      match (_to_time_field msg "secs";; _to_time_field msg "nsecs") obj with
      | (Return _, obj') => (Return obj', obj')
      | (Raise e, obj') => (Raise e, obj')
      end in
    if is_none inst then
      if String.eqb rostype "time" then
        ((fill (Time (PyInt 0) (PyInt 0))).1, (inst, w))
      else if String.eqb rostype "duration" then
        ((fill (Duration (PyInt 0) (PyInt 0))).1, (inst, w))
      else (Return PyNone, (inst, w))
    else
      let '(r, inst') := fill inst in (r, (inst', w)).

Definition _to_primitive_inst (msg : pyval) (rostype roottype : string)
    (stack : list string) : outcome pyval :=
  primitive ←
    (if is_primitive_type msg then
       allowed ← type_map_get (type_name msg); Return (py_in rostype allowed)
     else Return false);
  if (primitive : bool) then Return msg
  else
    text ←
      (if is_string_type msg then
         allowed ← type_map_get (type_name msg); Return (py_in rostype allowed)
       else Return false);
    if (text : bool) then
      match msg with
      | PyStr s => Return (PyBytes (encode_ascii_ignore s))
      | _ => Raise (AttributeError "encode")
      end
    else Raise (FieldTypeMismatchException roottype stack rostype (type_name msg)).

(** The type of [_to_inst], which [_to_list_inst] and [_to_object_inst] call
    back into. *)
Definition to_inst_t : Type :=
  pyval -> string -> string -> pyval -> list string ->
  world -> outcome pyval * (pyval * world).

(** [_to_inst(x, rostype, roottype, None, stack)] for an element [x] of a
    sequence: there is no object whose state would matter afterwards. *)
Definition _to_list_elem (to_inst : to_inst_t) (rostype roottype : string)
    (stack : list string) (x : pyval) : M world pyval :=
  fun w => let '(r, (_, w')) := to_inst x rostype roottype PyNone stack w in
           (r, w').

Definition _to_list_inst_with (to_inst : to_inst_t)
    (msg : pyval) (rostype roottype : string) (inst : pyval)
    (stack : list string) : M world pyval :=
  match msg with
  | PyList l | PyTuple l =>
      if Nat.eqb (length l) 0 then mret (PyList [])
      else
        let rostype := list_braces_sub rostype in
        elems ← mapM (_to_list_elem to_inst rostype roottype stack) l;
        mret (PyList elems)
  | _ => raise (FieldTypeMismatchException roottype stack rostype (type_name msg))
  end.

(** [dict(zip(names, types))]: a later pair overrides an earlier one. *)
Definition dict_zip (names types : list string) : gmap string string :=
  foldl (fun m '(k, v) => <[k := v]> m) ∅ (zip names types).

(** The nested object a field holds is the one the recursive call worked on:
    what the call did to it shows in the field, whether the call returned or
    raised. *)
Definition store (inst : pyval) (name : string) (v : pyval) : pyval :=
  match inst with
  | PyInst c attrs => PyInst c (assoc_set name v attrs)
  | _ => inst
  end.

(** The body of the loop of [_to_object_inst]; the state is the instance and
    the world. *)
Definition _to_object_field (to_inst : to_inst_t)
    (inst_fields : gmap string string) (roottype : string)
    (stack : list string) (field_name : string) (field_msg : pyval)
  : M (pyval * world) unit :=
  let field_stack := stack ++ [field_name] in
  match inst_fields !! field_name with
  | None => raise (NonexistentFieldException roottype field_stack)
  | Some field_rostype =>
      fun '(inst, w) =>
        match getattr inst field_name with
        | Raise e => (Raise e, (inst, w))
        | Return field_inst =>
            let '(r, (field_inst', w')) :=
              to_inst field_msg field_rostype roottype field_inst field_stack w in
            let inst := store inst field_name field_inst' in
            match r with
            | Raise e => (Raise e, (inst, w'))
            | Return field_value =>
                match setattr inst field_name field_value with
                | Return inst' => (Return tt, (inst', w'))
                | Raise e => (Raise e, (inst, w'))
                end
            end
        end
  end.

Fixpoint _to_object_fields (to_inst : to_inst_t)
    (inst_fields : gmap string string) (roottype : string)
    (stack : list string) (items : list (string * pyval))
  : M (pyval * world) unit :=
  match items with
  | [] => mret tt
  | (field_name, field_msg) :: rest =>
      _to_object_field to_inst inst_fields roottype stack field_name field_msg;;
      _to_object_fields to_inst inst_fields roottype stack rest
  end.

(** [inst.stamp = rospy.get_rostime()] *)
Definition stamp_header : M (pyval * world) unit :=
  fun '(inst, w) =>
    let '(now, w') := get_rostime w in
    match now ≫= setattr inst "stamp" with
    | Return inst' => (Return tt, (inst', w'))
    | Raise e => (Raise e, (inst, w'))
    end.

(** [dict(zip(inst.__slots__, inst._slot_types))] *)
Definition inst_fields_of (inst : pyval) : outcome (gmap string string) :=
  slots ← attr__slots__ inst;
  slot_types ← attr__slot_types inst;
  Return (dict_zip slots slot_types).

Definition read_inst_fields : M (pyval * world) (gmap string string) :=
  fun '(inst, w) => (inst_fields_of inst, (inst, w)).

(** [return inst] *)
Definition return_inst : M (pyval * world) pyval :=
  fun '(inst, w) => (Return inst, (inst, w)).

Definition _to_object_inst_with (to_inst : to_inst_t)
    (msg : pyval) (rostype roottype : string) (inst : pyval)
    (stack : list string) (w : world) : outcome pyval * (pyval * world) :=
  match msg with
  | PyDict items =>
      ((if py_in rostype ros_header_types then stamp_header else mret tt);;
       inst_fields ← read_inst_fields;
       _to_object_fields to_inst inst_fields roottype stack items;;
       return_inst) (inst, w)
  | _ =>
      (Raise (FieldTypeMismatchException roottype stack rostype (type_name msg)),
       (inst, w))
  end.

Fixpoint _to_inst (msg : pyval) (rostype roottype : string) (inst : pyval)
    (stack : list string) (w : world) {struct msg}
  : outcome pyval * (pyval * world) :=
  if py_in rostype ros_binary_types then (_to_binary_inst E msg, (inst, w))
  else if py_in rostype ros_time_types then _to_time_inst msg rostype inst w
  else if py_in rostype ros_primitive_types then
    (_to_primitive_inst msg rostype roottype stack, (inst, w))
  else if negb (is_none inst) && is_list_type inst then
    let '(r, w') := _to_list_inst_with _to_inst msg rostype roottype inst stack w in
    (r, (inst, w'))
  else if is_none inst then
    match _get_msg_class E rostype w with
    | (Raise e, w') => (Raise e, (inst, w'))
    | (Return cls, w') =>
        let '(r, (_, w'')) :=
          _to_object_inst_with _to_inst msg rostype roottype (new cls) stack w' in
        (r, (inst, w''))
    end
  else _to_object_inst_with _to_inst msg rostype roottype inst stack w.

Definition _to_list_inst : pyval -> string -> string -> pyval -> list string ->
                           M world pyval :=
  _to_list_inst_with _to_inst.

Definition _to_object_inst : to_inst_t := _to_object_inst_with _to_inst.

Definition populate_instance (msg inst : pyval) (w : world)
  : outcome pyval * (pyval * world) :=
  match attr__type inst with
  | Raise e => (Raise e, (inst, w))
  | Return rostype => _to_inst msg rostype rostype inst [] w
  end.

End Deserializer.

(** ** A small installation

    Generated classes the way genpy writes them, records of these classes,
    the package tree that holds the classes and a clock: the collaborators
    of the examples below. *)
Module Demo.

Definition Header_info : classinfo :=
  {| cls_name := "Header"; _type := Some "std_msgs/Header";
     __slots__ := ["seq"; "stamp"; "frame_id"];
     _slot_types := Some ["uint32"; "time"; "string"] |}.

Definition Header : pyclass :=
  {| cls_info := Header_info;
     cls_init := [("seq", PyInt 0); ("stamp", Time (PyInt 0) (PyInt 0));
                  ("frame_id", PyStr "")] |}.

Definition Reading_info : classinfo :=
  {| cls_name := "Reading"; _type := Some "demo_msgs/Reading";
     __slots__ := ["header"; "count"; "level"; "samples"; "raw"];
     _slot_types := Some ["std_msgs/Header"; "int32"; "float64";
                          "int32[]"; "uint8[]"] |}.

Definition Reading : pyclass :=
  {| cls_info := Reading_info;
     cls_init := [("header", new Header); ("count", PyInt 0);
                  ("level", PyFloat 0); ("samples", PyList []);
                  ("raw", PyBytes [])] |}.

(** A header by name, without text; a record without text; a record that
    nests both. *)
Definition Mark_info : classinfo :=
  {| cls_name := "Header"; _type := Some "Header";
     __slots__ := ["seq"; "stamp"];
     _slot_types := Some ["uint32"; "time"] |}.

Definition Mark : pyclass :=
  {| cls_info := Mark_info;
     cls_init := [("seq", PyInt 0); ("stamp", Time (PyInt 0) (PyInt 0))] |}.

Definition Sample_info : classinfo :=
  {| cls_name := "Sample"; _type := Some "demo_msgs/Sample";
     __slots__ := ["at"; "count"; "level"; "values"; "raw"; "ok"];
     _slot_types := Some ["time"; "int32"; "float64"; "float32[]"; "uint8[]";
                          "bool"] |}.

Definition Sample : pyclass :=
  {| cls_info := Sample_info;
     cls_init := [("at", Time (PyInt 0) (PyInt 0)); ("count", PyInt 0);
                  ("level", PyFloat 0); ("values", PyList []);
                  ("raw", PyBytes []); ("ok", PyBool false)] |}.

Definition Track_info : classinfo :=
  {| cls_name := "Track"; _type := Some "demo_msgs/Track";
     __slots__ := ["header"; "samples"; "span"];
     _slot_types := Some ["Header"; "demo_msgs/Sample[]"; "duration"] |}.

Definition Track : pyclass :=
  {| cls_info := Track_info;
     cls_init := [("header", new Mark); ("samples", PyList []);
                  ("span", Duration (PyInt 0) (PyInt 0))] |}.

Definition a_sample : pyval :=
  PyInst Sample_info
    [("at", Time (PyInt 12) (PyInt 500)); ("count", PyInt 3);
     ("level", PyFloat 4611686018427387904); ("values", PyList [PyInt 1; PyFloat 0]);
     ("raw", PyBytes [x01; xff]); ("ok", PyBool true)].


Definition a_header : pyval :=
  PyInst Header_info
    [("seq", PyInt 1); ("stamp", Time (PyInt 5) (PyInt 7)); ("frame_id", PyStr "")].

Definition env : rosenv :=
  {| rostime := fun k => (1700000000 + Z.of_nat k, 42)%Z;
     load_manifest := fun package =>
       if String.eqb package "std_msgs" || String.eqb package "demo_msgs"
       then Return tt
       else Raise (ForeignError "ResourceNotFound" (Some package));
     import_ := fun name =>
       if String.eqb name "std_msgs.msg"
       then Return {[ "msg" := {[ "Header" := Header ]} ]}
       else if String.eqb name "demo_msgs.msg"
       then Return {[ "msg" := {[ "Reading" := Reading; "Sample" := Sample;
                                  "Track" := Track ]} ]}
       else Raise (ForeignError "ImportError" None);
     can_allocate := fun n => (n <? 2 ^ 31)%Z |}.

End Demo.

(** ** Invariants of the registry *)

(** Every key of a cache splits into a package and a name. *)
Definition keys_split (cache : cache_ref) (w : world) : Prop :=
  forall key cls, cache_of cache w !! key = Some cls -> length (splits key) = 2.

(** ** Records that come back from the conversion *)

(** The kinds of value a primitive schema type takes, by [type_map]. *)
Definition kind_ok (rostype : string) (v : pyval) : bool :=
  is_primitive_type v
  && match assoc (type_name v) type_map with
     | Some allowed => py_in rostype allowed
     | None => false
     end.

(** A type that is neither binary, nor time, nor primitive. *)
Definition is_record_type (rostype : string) : bool :=
  negb (py_in rostype ros_binary_types)
  && negb (py_in rostype ros_time_types)
  && negb (py_in rostype ros_primitive_types).

(** What the registry makes of a type string when nothing is cached, and the
    caches that hold nothing else. *)
Definition resolve_cold (E : rosenv) (typestring : string) : outcome pyclass :=
  (_get_msg_class E typestring initial_world).1.

Definition cache_sound (E : rosenv) (w : world) : Prop :=
  forall key cls, _loaded_msgs w !! key = Some cls -> resolve_cold E key = Return cls.

Section Representable.

Variable E : rosenv.


End Representable.


(** ** Predicates of the further properties *)

(** A [[] with a []] somewhere after it: what [list_braces] matches. *)
Fixpoint has_pair (s : string) : bool :=
  match s with
  | EmptyString => false
  | String c s' => (Ascii.eqb c "[" && has_char "]" s') || has_pair s'
  end.

(** [blames roottype stack e]: when [e] is one of the two exceptions of the
    deserializer that carry a root type and a path, the root type is
    [roottype] and the path starts with [stack]. *)
Definition blames (roottype : string) (stack : list string) (e : exn) : Prop :=
  match e with
  | NonexistentFieldException basetype fields =>
      basetype = roottype /\ stack `prefix_of` fields /\ fields <> stack
  | FieldTypeMismatchException root fields _ _ =>
      root = roottype /\ stack `prefix_of` fields
  | _ => True
  end.

(** The exception classes that the module defines. *)
Definition is_module_exception (e : exn) : bool :=
  match e with
  | InvalidMessageException _ | NonexistentFieldException _ _
  | FieldTypeMismatchException _ _ _ _ | InvalidTypeStringException _
  | InvalidPackageException _ _ | InvalidModuleException _ _ _
  | InvalidClassException _ _ _ _ => true
  | _ => false
  end.

(** * Properties *)

(** ** Serializing a value without a type tag *)

Lemma extract_values_no_type (inst : pyval) :
  getattr__type inst = None ->
  extract_values inst =
    Raise (TypeError "__init__() missing 1 required positional argument: 'inst'").
Proof. intros H. unfold extract_values. now rewrite H. Qed.

(** C2.  A value without a [_type] attribute, here the integer 5, makes
    [extract_values] raise, but not [InvalidMessageException]: the exception
    is constructed without the argument its constructor requires, so the
    [raise] statement ends in a [TypeError]. *)
Theorem extract_values_untagged_raises_TypeError :
  getattr__type (PyInt 5) = None /\
  extract_values (PyInt 5) =
    Raise (TypeError "__init__() missing 1 required positional argument: 'inst'") /\
  forall name, extract_values (PyInt 5) <> Raise (InvalidMessageException name).
Proof.
  split; [reflexivity|]. split.
  - now apply extract_values_no_type.
  - intros name. rewrite extract_values_no_type by reflexivity. discriminate.
Qed.

(** ** Integers against the numeric schema types *)

(** C10.  The row of [type_map] for [int] lists every numeric schema type,
    the two floating-point ones included, and an integer deserialized against
    any of them comes back unchanged; the call touches neither the target nor
    the world. *)
Theorem to_inst_int_numeric E (z : Z) (roottype : string) (inst : pyval)
    (stack : list string) (w : world) :
  type_map_get "int" =
    Return ["int8"; "byte"; "uint8"; "char"; "int16"; "uint16"; "int32";
            "uint32"; "int64"; "uint64"; "float32"; "float64"] /\
  Forall (fun rostype =>
            _to_inst E (PyInt z) rostype roottype inst stack w
            = (Return (PyInt z), (inst, w)))
         ["int8"; "byte"; "uint8"; "char"; "int16"; "uint16"; "int32";
          "uint32"; "int64"; "uint64"; "float32"; "float64"].
Proof.
  split; [reflexivity|].
  repeat constructor.
Qed.

(** ** base64: decoding what was encoded *)

Module Base64Facts.
Import Base64.

Local Open Scope N_scope.

Ltac lia_div := zify; Z.to_euclidean_division_equations; lia.

Lemma sextet_cases (P : N -> Prop) :
  (forall n : nat, (n < 64)%nat -> P (N.of_nat n)) ->
  forall i, i < 64 -> P i.
Proof.
  intros H i Hi. rewrite <- (N2Nat.id i). apply H. lia.
Qed.

Lemma a2b_b2a i : i < 64 -> a2b (b2a i) = Some i.
Proof.
  revert i. apply sextet_cases. intros n Hn.
  do 64 (destruct n as [|n]; [vm_compute; reflexivity|]). lia.
Qed.

Lemma b2a_not_pad i : i < 64 -> Byte.eqb (b2a i) pad = false.
Proof.
  revert i. apply sextet_cases. intros n Hn.
  do 64 (destruct n as [|n]; [vm_compute; reflexivity|]). lia.
Qed.

Lemma b2a_ascii i : i < 64 -> is_ascii (b2a i) = true.
Proof.
  revert i. apply sextet_cases. intros n Hn.
  do 64 (destruct n as [|n]; [vm_compute; reflexivity|]). lia.
Qed.

Lemma to_N_lt x : Byte.to_N x < 256.
Proof. pose proof (Byte.to_N_bounded x). lia. Qed.

Lemma byte_of_to_N x n : n = Byte.to_N x -> byte_of_N n = x.
Proof.
  intros ->. unfold byte_of_N.
  rewrite N.mod_small by apply to_N_lt. now rewrite Byte.of_to_N.
Qed.

(** One step of the decoder on a character of the alphabet. *)
Lemma a2b_loop_b2a i rest quad_pos leftchar pads :
  i < 64 ->
  a2b_loop (b2a i :: rest) quad_pos leftchar pads =
    match quad_pos with
    | 0%nat => a2b_loop rest 1 i 0
    | 1%nat => cons (byte_of_N (leftchar * 4 + i / 16)) <$> a2b_loop rest 2 (i mod 16) 0
    | 2%nat => cons (byte_of_N (leftchar * 16 + i / 4)) <$> a2b_loop rest 3 (i mod 4) 0
    | _ => cons (byte_of_N (leftchar * 64 + i)) <$> a2b_loop rest 0 0 0
    end.
Proof.
  intros Hi. cbn [a2b_loop]. now rewrite b2a_not_pad, a2b_b2a.
Qed.

Lemma a2b_loop_b2a_base64 data : a2b_loop (b2a_base64 data) 0 0 0 = Some data.
Proof.
  remember (length data) as n eqn:Hn.
  revert data Hn. induction n as [n IH] using lt_wf_ind. intros data Hn.
  destruct data as [|x [|y [|z rest]]].
  - reflexivity.
  - pose proof (to_N_lt x).
    cbn [b2a_base64].
    do 2 (rewrite a2b_loop_b2a by lia_div). cbn.
    f_equal. f_equal. apply byte_of_to_N. lia_div.
  - pose proof (to_N_lt x). pose proof (to_N_lt y).
    cbn [b2a_base64].
    do 3 (rewrite a2b_loop_b2a by lia_div). cbn.
    f_equal. f_equal; [|f_equal]; apply byte_of_to_N; lia_div.
  - pose proof (to_N_lt x). pose proof (to_N_lt y). pose proof (to_N_lt z).
    cbn [b2a_base64].
    do 4 (rewrite a2b_loop_b2a by lia_div).
    rewrite (IH (length rest)) by (cbn in Hn; (lia || reflexivity)).
    cbn. f_equal. f_equal; [|f_equal; [|f_equal]]; apply byte_of_to_N; lia_div.
Qed.

Lemma a2b_b2a_base64 data : a2b_base64 (b2a_base64 data) = Some data.
Proof. apply a2b_loop_b2a_base64. Qed.

Lemma b2a_base64_ascii data : forallb is_ascii (b2a_base64 data) = true.
Proof.
  remember (length data) as n eqn:Hn.
  revert data Hn. induction n as [n IH] using lt_wf_ind. intros data Hn.
  destruct data as [|x [|y [|z rest]]].
  - reflexivity.
  - pose proof (to_N_lt x). cbn [b2a_base64 forallb].
    rewrite !b2a_ascii by lia_div. reflexivity.
  - pose proof (to_N_lt x). pose proof (to_N_lt y). cbn [b2a_base64 forallb].
    rewrite !b2a_ascii by lia_div. reflexivity.
  - pose proof (to_N_lt x). pose proof (to_N_lt y). pose proof (to_N_lt z).
    cbn [b2a_base64 forallb].
    rewrite !b2a_ascii by lia_div.
    rewrite (IH (length rest)) by (cbn in Hn; (lia || reflexivity)).
    reflexivity.
Qed.

End Base64Facts.

(** ** Text into a binary array *)

Lemma standard_b64decode_encoded (b : list byte) :
  standard_b64decode (PyStr (string_of_list_byte (Base64.b2a_base64 b)))
  = Return (PyBytes b).
Proof.
  unfold standard_b64decode.
  rewrite list_byte_of_string_of_list_byte.
  now rewrite Base64Facts.b2a_base64_ascii, Base64Facts.a2b_b2a_base64.
Qed.

Lemma to_binary_inst_text E (s : string) :
  _to_binary_inst E (PyStr s) =
    Return (match standard_b64decode (PyStr s) with
            | Return v => v
            | Raise _ => PyStr s
            end).
Proof.
  unfold _to_binary_inst. cbn [is_string_type].
  now destruct (standard_b64decode (PyStr s)).
Qed.

(** C4.  For both binary array types, deserializing a text never raises: the
    call returns what [standard_b64decode] makes of the text when it decodes
    and the text itself when it does not, and leaves the target and the world
    alone.  A byte string serializes to its base64 form, and the text of that
    form deserializes to the byte string. *)
Theorem to_inst_binary_text E (s : string) (b : list byte)
    (roottype : string) (inst : pyval) (stack : list string) (w : world) :
  Forall (fun rostype =>
            _to_inst E (PyStr s) rostype roottype inst stack w
            = (Return (match standard_b64decode (PyStr s) with
                       | Return v => v
                       | Raise _ => PyStr s
                       end), (inst, w))
            /\ _from_inst (PyBytes b) rostype
               = Return (PyBytes (Base64.b2a_base64 b))
            /\ _to_inst E (PyStr (string_of_list_byte (Base64.b2a_base64 b)))
                 rostype roottype inst stack w
               = (Return (PyBytes b), (inst, w)))
         ros_binary_types.
Proof.
  assert (Hto : forall t rostype,
             py_in rostype ros_binary_types = true ->
             _to_inst E (PyStr t) rostype roottype inst stack w
             = (_to_binary_inst E (PyStr t), (inst, w))).
  { intros t rostype H. cbn [_to_inst]. now rewrite H. }
  repeat constructor;
    try (rewrite Hto by reflexivity; rewrite to_binary_inst_text;
         try rewrite standard_b64decode_encoded; reflexivity).
Qed.

(** ** Type strings *)

Lemma str_split_not_nil sep s : str_split sep s <> [].
Proof.
  destruct s as [|c s]; cbn; [discriminate|].
  destruct (Ascii.eqb c sep); [discriminate|].
  destruct (str_split sep s); discriminate.
Qed.

Lemma str_split_no_sep sep s x : x ∈ str_split sep s -> has_char sep x = false.
Proof.
  revert x. induction s as [|c s IH]; intros x Hx; cbn in Hx.
  - apply list_elem_of_singleton in Hx. now subst.
  - destruct (Ascii.eqb c sep) eqn:Hc.
    + apply elem_of_cons in Hx as [->|Hx]; [reflexivity|now apply IH].
    + destruct (str_split sep s) as [|y ys] eqn:Hs.
      * apply list_elem_of_singleton in Hx. subst. cbn. now rewrite Hc.
      * apply elem_of_cons in Hx as [->|Hx].
        -- cbn. rewrite Hc. apply IH. left.
        -- apply IH. now right.
Qed.

Lemma str_split_whole sep s : has_char sep s = false -> str_split sep s = [s].
Proof.
  induction s as [|c s IH]; [reflexivity|]. cbn.
  intros H. apply orb_false_iff in H as [Hc Hs].
  now rewrite Hc, (IH Hs).
Qed.

Lemma str_split_app sep a b :
  has_char sep a = false ->
  str_split sep (a +:+ String sep b) = a :: str_split sep b.
Proof.
  induction a as [|c a IH]; cbn [has_char].
  - intros _. change (EmptyString +:+ String sep b) with (String sep b).
    cbn [str_split]. now rewrite Ascii.eqb_refl.
  - intros H. apply orb_false_iff in H as [Hc Ha].
    change (String c a +:+ String sep b) with (String c (a +:+ String sep b)).
    cbn [str_split]. now rewrite Hc, (IH Ha).
Qed.

Lemma splits_elem typestring x :
  x ∈ splits typestring -> has_char "/" x = false /\ nonempty x = true.
Proof.
  unfold splits. intros H. apply list_elem_of_filter in H as [Hn Hx].
  split; [now apply str_split_no_sep in Hx|].
  now apply Is_true_true.
Qed.

(** The normalised type string splits into the same two segments. *)
Lemma splits_normalised typestring modname classname :
  splits typestring = [modname; classname] ->
  splits (modname +:+ "/" +:+ classname) = [modname; classname].
Proof.
  intros H.
  destruct (splits_elem typestring modname) as [Hm Hm']; [rewrite H; left|].
  destruct (splits_elem typestring classname) as [Hc Hc'];
    [rewrite H; right; left|].
  unfold splits. change ("/" +:+ classname) with (String "/" classname).
  rewrite str_split_app, str_split_whole by assumption.
  rewrite !filter_cons, filter_nil.
  rewrite !decide_True by now apply Is_true_true.
  reflexivity.
Qed.

Lemma _splittype_Return typestring l :
  _splittype typestring = Return l ->
  exists modname classname,
    l = [modname; classname] /\ splits typestring = [modname; classname].
Proof.
  unfold _splittype. destruct (Nat.eqb_spec (length (splits typestring)) 2) as [Hl|];
    [|discriminate].
  intros [= <-].
  destruct (splits typestring) as [|m [|c [|? ?]]]; try discriminate.
  now exists m, c.
Qed.

Example splits_onlyonesegment : splits "onlyonesegment" = ["onlyonesegment"].
Proof. reflexivity. Qed.

Example splits_excess_slashes : splits "/pkg//Type/" = ["pkg"; "Type"].
Proof. reflexivity. Qed.

(** ** The registry *)

Create Rewrite HintDb world.

Section RegistryFacts.

Variable E : rosenv.

Lemma cache_of_lock_set cache lock held w :
  cache_of cache (lock_set lock held w) = cache_of cache w.
Proof. now destruct cache, lock. Qed.

Lemma cache_of_log_load cache call w :
  cache_of cache (log_load call w) = cache_of cache w.
Proof. now destruct cache. Qed.

Lemma cache_of_setitem cache key value w :
  cache_of cache (cache_setitem cache key value w)
  = <[key := value]> (cache_of cache w).
Proof. now destruct cache. Qed.

Lemma load_calls_lock_set lock held w :
  load_calls (lock_set lock held w) = load_calls w.
Proof. now destruct lock. Qed.

Lemma load_calls_setitem cache key value w :
  load_calls (cache_setitem cache key value w) = load_calls w.
Proof. now destruct cache. Qed.

Lemma lock_held_lock_set lock held w : lock_held lock (lock_set lock held w) = held.
Proof. now destruct lock. Qed.

Lemma relock_free lock w :
  lock_held lock w = false -> lock_set lock false (lock_set lock true w) = w.
Proof. destruct w, lock; cbn; now intros ->. Qed.

Lemma relock_relock lock w' :
  lock_set lock false (lock_set lock true (lock_set lock false w')) = lock_set lock false w'.
Proof. apply relock_free, lock_held_lock_set. Qed.

Hint Rewrite cache_of_lock_set cache_of_log_load cache_of_setitem
  load_calls_lock_set load_calls_setitem lock_held_lock_set : world.

(** What [_load_class] returns or raises depends on its arguments only; its
    call is logged. *)
Lemma _load_class_run modname subname classname w :
  _load_class E modname subname classname w =
    ((_load_class E modname subname classname initial_world).1,
     log_load (modname, subname, classname) w).
Proof.
  unfold _load_class, modify, raise, lift, mbind, M_bind, mret, M_ret. cbn.
  destruct (load_manifest E modname) as [[]|exc].
  - destruct (import_ E _) as [pypkg|exc]; [|reflexivity].
    destruct (pypkg !! subname) as [submodule|]; [|reflexivity].
    destruct (submodule !! classname); reflexivity.
  - destruct (InvalidPackageException_new modname exc); reflexivity.
Qed.

Lemma _load_class_not_InvalidTypeString modname subname classname w t :
  (_load_class E modname subname classname w).1
  <> Raise (InvalidTypeStringException t).
Proof.
  unfold _load_class, modify, raise, lift, mbind, M_bind, mret, M_ret. cbn.
  destruct (load_manifest E modname) as [[]|exc].
  - destruct (import_ E _) as [pypkg|exc]; [|discriminate].
    destruct (pypkg !! subname) as [submodule|]; [|discriminate].
    destruct (submodule !! classname); discriminate.
  - unfold InvalidPackageException_new.
    destruct (exn_message exc); discriminate.
Qed.

(** [_get_class], path by path. *)
Lemma _get_class_unfold typestring subname cache lock w :
  _get_class E typestring subname cache lock w =
    let w1 := lock_set lock false (lock_set lock true w) in
    match cache_of cache w !! typestring with
    | Some cls => (Return cls, w1)
    | None =>
        match _splittype typestring with
        | Raise e => (Raise e, w1)
        | Return [modname; classname] =>
            let norm_typestring := modname +:+ "/" +:+ classname in
            match cache_of cache w !! norm_typestring with
            | Some cls => (Return cls, w1)
            | None =>
                match (_load_class E modname subname classname initial_world).1 with
                | Return cls =>
                    (Return cls,
                     lock_set lock false
                       (cache_setitem cache norm_typestring cls
                          (cache_setitem cache typestring cls
                             (lock_set lock true
                                (log_load (modname, subname, classname) w1)))))
                | Raise e => (Raise e, log_load (modname, subname, classname) w1)
                end
            end
        | Return _ => (Raise (ValueError "too many values to unpack"), w1)
        end
    end.
Proof.
  unfold _get_class, _get_from_cache, _add_to_cache, acquire, release, modify,
    get, lift, raise, mbind, M_bind, mret, M_ret.
  cbn. rewrite cache_of_lock_set.
  destruct (cache_of cache w !! typestring); [reflexivity|].
  destruct (_splittype typestring) as [[|m [|c [|? ?]]]|e]; try reflexivity.
  rewrite !cache_of_lock_set.
  destruct (cache_of cache w !! _); [now rewrite relock_relock|].
  rewrite _load_class_run.
  destruct (_load_class E m subname c initial_world).1 as [cls|e]; cbn.
  - f_equal. rewrite relock_relock.
    destruct w, cache, lock; reflexivity.
  - now rewrite relock_relock.
Qed.

(** The keys of a cache keep splitting in two. *)
Lemma keys_split_initial cache : keys_split cache initial_world.
Proof. intros key cls. destruct cache; cbn; now rewrite lookup_empty. Qed.

Lemma _get_class_keys_split typestring subname cache lock w :
  keys_split cache w ->
  keys_split cache (_get_class E typestring subname cache lock w).2.
Proof.
  intros Hw. rewrite _get_class_unfold. cbv zeta.
  assert (Hw1 : keys_split cache (lock_set lock false (lock_set lock true w))).
  { intros key cls. rewrite !cache_of_lock_set. apply Hw. }
  destruct (cache_of cache w !! typestring); [exact Hw1|].
  destruct (_splittype typestring) as [l|e] eqn:Hs; [|exact Hw1].
  destruct (_splittype_Return _ _ Hs) as (m & c & -> & Hmc).
  destruct (cache_of cache w !! _); [exact Hw1|].
  destruct (_load_class E m subname c initial_world).1 as [cls|e]; cbn.
  - intros key cls'. autorewrite with world.
    intros H. apply lookup_insert_Some in H as [[<- _]|[_ H]].
    + now rewrite (splits_normalised _ _ _ Hmc).
    + apply lookup_insert_Some in H as [[<- _]|[_ H]].
      * now rewrite Hmc.
      * revert H. apply Hw.
  - intros key cls'. autorewrite with world. apply Hw.
Qed.

(** C3.  While the keys of the cache are strings that split in two (the
    cache starts empty and [_get_class] keeps it so), resolving a type string
    raises [InvalidTypeStringException] exactly when the string does not split
    on [/] into two non-empty segments, and the exception then carries the
    string. *)
Theorem get_class_InvalidTypeString_iff typestring subname cache lock w :
  keys_split cache w ->
  ((exists t, (_get_class E typestring subname cache lock w).1
              = Raise (InvalidTypeStringException t))
   <-> length (splits typestring) <> 2)
  /\ ((exists t, (_get_class E typestring subname cache lock w).1
                 = Raise (InvalidTypeStringException t))
      -> (_get_class E typestring subname cache lock w).1
         = Raise (InvalidTypeStringException typestring)).
Proof.
  intros Hw. rewrite _get_class_unfold. cbv zeta.
  destruct (cache_of cache w !! typestring) as [cls|] eqn:Hhit.
  { apply Hw in Hhit. cbn. split; [split|]; intros H.
    - destruct H as [t [=]].
    - contradiction.
    - destruct H as [t [=]]. }
  unfold _splittype.
  destruct (Nat.eqb_spec (length (splits typestring)) 2) as [Hlen|Hlen].
  - destruct (splits typestring) as [|m [|c [|? ?]]]; try discriminate.
    assert (Hno : forall r : outcome pyclass * world,
               r = match cache_of cache w !! (m +:+ "/" +:+ c) with
                   | Some cls => (Return cls, lock_set lock false (lock_set lock true w))
                   | None =>
                       match (_load_class E m subname c initial_world).1 with
                       | Return cls =>
                           (Return cls,
                            lock_set lock false
                              (cache_setitem cache (m +:+ "/" +:+ c) cls
                                 (cache_setitem cache typestring cls
                                    (lock_set lock true
                                       (log_load (m, subname, c)
                                          (lock_set lock false (lock_set lock true w)))))))
                       | Raise e =>
                           (Raise e, log_load (m, subname, c)
                                       (lock_set lock false (lock_set lock true w)))
                       end
                   end ->
               forall t, r.1 <> Raise (InvalidTypeStringException t)).
    { intros r -> t.
      destruct (cache_of cache w !! (m +:+ "/" +:+ c)); [cbn; discriminate|].
      pose proof (_load_class_not_InvalidTypeString m subname c initial_world t) as Hl.
      destruct (_load_class E m subname c initial_world).1;
        [cbn; discriminate|exact Hl]. }
    split; [split|]; intros H.
    + destruct H as [t H]. now apply (Hno _ eq_refl) in H.
    + contradiction.
    + destruct H as [t H]. now apply (Hno _ eq_refl) in H.
  - cbn. split; [split|]; intros H; eauto.
Qed.

(** C5.  When a call of [_get_class] returns a class and has called
    [_load_class] to get it, the string splits into a package and a name, the
    load was the one of that pair, and the cache afterwards holds the class
    under the string as supplied and under its normalised form, next to what
    it held before.  Resolving either string again returns the same class and
    leaves the world as it is: nothing is loaded again. *)
Theorem get_class_cold_load typestring subname cache lock w cls w' :
  _get_class E typestring subname cache lock w = (Return cls, w') ->
  load_calls w' <> load_calls w ->
  exists modname classname,
    splits typestring = [modname; classname]
    /\ load_calls w' = load_calls w ++ [(modname, subname, classname)]
    /\ cache_of cache w'
       = <[modname +:+ "/" +:+ classname := cls]>
           (<[typestring := cls]> (cache_of cache w))
    /\ cache_of cache w' !! typestring = Some cls
    /\ cache_of cache w' !! (modname +:+ "/" +:+ classname) = Some cls
    /\ _get_class E typestring subname cache lock w' = (Return cls, w')
    /\ _get_class E (modname +:+ "/" +:+ classname) subname cache lock w'
       = (Return cls, w').
Proof.
  rewrite _get_class_unfold. cbv zeta.
  destruct (cache_of cache w !! typestring) as [cls0|] eqn:Hhit.
  { intros [= <- <-]. autorewrite with world. congruence. }
  destruct (_splittype typestring) as [l|e] eqn:Hs;
    [|intros [=]].
  destruct (_splittype_Return _ _ Hs) as (m & c & -> & Hmc).
  destruct (cache_of cache w !! (m +:+ "/" +:+ c)) as [cls0|] eqn:Hnorm.
  { intros [= <- <-]. autorewrite with world. congruence. }
  destruct (_load_class E m subname c initial_world).1 as [cls0|e];
    [|intros [=]].
  intros [= <- <-] _. exists m, c.
  set (w' := lock_set lock false _).
  assert (Hcache : cache_of cache w'
                   = <[m +:+ "/" +:+ c := cls0]> (<[typestring := cls0]> (cache_of cache w))).
  { subst w'. now autorewrite with world. }
  assert (Hts : cache_of cache w' !! typestring = Some cls0).
  { rewrite Hcache. destruct (decide (m +:+ "/" +:+ c = typestring)) as [->|Hne].
    - apply lookup_insert_eq.
    - rewrite lookup_insert_ne by exact Hne. apply lookup_insert_eq. }
  assert (Hn : cache_of cache w' !! (m +:+ "/" +:+ c) = Some cls0).
  { rewrite Hcache. apply lookup_insert_eq. }
  assert (Hfree : lock_set lock false (lock_set lock true w') = w').
  { apply relock_free. subst w'. apply lock_held_lock_set. }
  split; [exact Hmc|]. split.
  { subst w'. autorewrite with world.
    destruct w, lock; reflexivity. }
  split; [exact Hcache|]. split; [exact Hts|]. split; [exact Hn|]. split.
  - rewrite _get_class_unfold. cbv zeta. now rewrite Hts, Hfree.
  - rewrite _get_class_unfold. cbv zeta. now rewrite Hn, Hfree.
Qed.

End RegistryFacts.

Lemma get_class_InvalidTypeString_iff_witness :
  keys_split Loaded_msgs initial_world
  /\ (exists t, (_get_class Demo.env "onlyonesegment" "msg" Loaded_msgs Msgs_lock
                   initial_world).1
                = Raise (InvalidTypeStringException t))
  /\ length (splits "onlyonesegment") <> 2.
Proof.
  pose proof (get_class_InvalidTypeString_iff Demo.env "onlyonesegment" "msg"
                Loaded_msgs Msgs_lock initial_world
                (keys_split_initial Loaded_msgs)) as [[_ H] _].
  split; [apply keys_split_initial|].
  split; [apply H|]; vm_compute; lia.
Defined.

Lemma get_class_cold_load_witness :
  exists modname classname,
    splits "/std_msgs//Header/" = [modname; classname]
    /\ (_get_class Demo.env (modname +:+ "/" +:+ classname) "msg"
          Loaded_msgs Msgs_lock
          (_get_class Demo.env "/std_msgs//Header/" "msg" Loaded_msgs Msgs_lock
             initial_world).2).1
       = Return Demo.Header.
Proof.
  destruct (get_class_cold_load Demo.env "/std_msgs//Header/" "msg"
              Loaded_msgs Msgs_lock initial_world Demo.Header
              (_get_class Demo.env "/std_msgs//Header/" "msg" Loaded_msgs
                 Msgs_lock initial_world).2)
    as (m & c & H1 & _ & _ & _ & _ & _ & H2).
  - reflexivity.
  - vm_compute. discriminate.
  - exists m, c. split; [exact H1|]. now rewrite H2.
Defined.

(** ** Attributes *)

Lemma assoc_assoc_set_eq {A} k (v : A) l : assoc k (assoc_set k v l) = Some v.
Proof.
  induction l as [|[k' v'] l IH]; cbn.
  - now rewrite String.eqb_refl.
  - destruct (String.eqb k k') eqn:Hk; cbn; rewrite ?String.eqb_refl, ?Hk; auto.
Qed.

Lemma assoc_assoc_set_ne {A} k k' (v : A) l :
  k <> k' -> assoc k' (assoc_set k v l) = assoc k' l.
Proof.
  intros Hne. induction l as [|[k0 v0] l IH]; cbn.
  - destruct (String.eqb_spec k' k); [congruence|reflexivity].
  - destruct (String.eqb_spec k k0) as [->|Hk]; cbn.
    + destruct (String.eqb_spec k' k0); [congruence|reflexivity].
    + destruct (String.eqb_spec k' k0); [reflexivity|exact IH].
Qed.

Lemma assoc_set_same {A} k (v : A) l : assoc k l = Some v -> assoc_set k v l = l.
Proof.
  induction l as [|[k' v'] l IH]; cbn; [discriminate|].
  destruct (String.eqb_spec k k') as [->|Hk].
  - now intros [= ->].
  - intros H. now rewrite IH.
Qed.

Lemma assoc_set_keys {A} k (v : A) l :
  is_Some (assoc k l) -> (assoc_set k v l).*1 = l.*1.
Proof.
  induction l as [|[k' v'] l IH]; cbn.
  - intros [? [=]].
  - destruct (String.eqb_spec k k') as [->|Hk]; [reflexivity|].
    intros H. cbn. now rewrite IH.
Qed.

Lemma getattr_store_eq inst name v field_inst :
  getattr inst name = Return field_inst ->
  getattr (store inst name v) name = Return v.
Proof.
  destruct inst; try discriminate. cbn. intros _. now rewrite assoc_assoc_set_eq.
Qed.

Lemma getattr_store_ne inst name name' v :
  name <> name' -> getattr (store inst name v) name' = getattr inst name'.
Proof.
  intros Hne. destruct inst; try reflexivity. cbn.
  now rewrite assoc_assoc_set_ne.
Qed.

Lemma store_same inst name v : getattr inst name = Return v -> store inst name v = inst.
Proof.
  destruct inst as [| | | | | | | | |c attrs]; try discriminate. cbn.
  destruct (assoc name attrs) eqn:H; [|discriminate].
  intros [= ->]. now rewrite assoc_set_same.
Qed.

Lemma setattr_Return inst name v inst' :
  setattr inst name v = Return inst' -> inst' = store inst name v.
Proof.
  destruct inst; try discriminate. cbn.
  destruct (py_in name (__slots__ c)); [|discriminate]. now intros [= <-].
Qed.

Lemma getattr_setattr_eq inst name v inst' :
  setattr inst name v = Return inst' -> getattr inst' name = Return v.
Proof.
  destruct inst; try discriminate. cbn.
  destruct (py_in name (__slots__ c)); [|discriminate]. intros [= <-].
  cbn. now rewrite assoc_assoc_set_eq.
Qed.

Lemma getattr_setattr_ne inst name name' v inst' :
  name <> name' ->
  setattr inst name v = Return inst' -> getattr inst' name' = getattr inst name'.
Proof.
  intros Hne H. apply setattr_Return in H as ->. now apply getattr_store_ne.
Qed.

Lemma inst_fields_of_store inst name v :
  inst_fields_of (store inst name v) = inst_fields_of inst.
Proof. now destruct inst. Qed.

Lemma inst_fields_of_setattr inst name v inst' :
  setattr inst name v = Return inst' -> inst_fields_of inst' = inst_fields_of inst.
Proof. intros H. apply setattr_Return in H as ->. apply inst_fields_of_store. Qed.

(** ** The walk over the keys of a mapping *)

Section DeserializerFacts.

Variable E : rosenv.

Lemma _to_inst_unfold msg rostype roottype inst stack w :
  _to_inst E msg rostype roottype inst stack w =
    if py_in rostype ros_binary_types then (_to_binary_inst E msg, (inst, w))
    else if py_in rostype ros_time_types then _to_time_inst E msg rostype inst w
    else if py_in rostype ros_primitive_types then
      (_to_primitive_inst msg rostype roottype stack, (inst, w))
    else if negb (is_none inst) && is_list_type inst then
      let '(r, w') := _to_list_inst E msg rostype roottype inst stack w in
      (r, (inst, w'))
    else if is_none inst then
      match _get_msg_class E rostype w with
      | (Raise e, w') => (Raise e, (inst, w'))
      | (Return cls, w') =>
          let '(r, (_, w'')) :=
            _to_object_inst E msg rostype roottype (new cls) stack w' in
          (r, (inst, w''))
      end
    else _to_object_inst E msg rostype roottype inst stack w.
Proof. destruct msg; reflexivity. Qed.

Section Walk.

Variable to_inst : to_inst_t.
Variable inst_fields : gmap string string.
Variables (roottype : string) (stack : list string).

Lemma _to_object_field_unknown field_name field_msg s :
  inst_fields !! field_name = None ->
  _to_object_field to_inst inst_fields roottype stack field_name field_msg s
  = (Raise (NonexistentFieldException roottype (stack ++ [field_name])), s).
Proof. intros H. unfold _to_object_field. now rewrite H. Qed.

(** A step keeps the class of the instance and every field but its own. *)
Lemma _to_object_field_frame field_name field_msg inst w r inst' w' :
  _to_object_field to_inst inst_fields roottype stack field_name field_msg (inst, w)
  = (r, (inst', w')) ->
  inst_fields_of inst' = inst_fields_of inst
  /\ forall name, name <> field_name -> getattr inst' name = getattr inst name.
Proof.
  unfold _to_object_field.
  destruct (inst_fields !! field_name) as [field_rostype|];
    [|intros [= <- <- <-]; auto].
  destruct (getattr inst field_name) as [field_inst|e];
    [|intros [= <- <- <-]; auto].
  destruct (to_inst _ _ _ _ _ _) as [r0 [field_inst' w0]].
  destruct r0 as [field_value|e].
  - destruct (setattr _ field_name field_value) as [inst2|e] eqn:Hset.
    + intros [= <- <- <-]. split.
      * now rewrite (inst_fields_of_setattr _ _ _ _ Hset), inst_fields_of_store.
      * intros name Hne.
        rewrite (getattr_setattr_ne _ field_name name _ _ (not_eq_sym Hne) Hset).
        now apply getattr_store_ne.
    + intros [= <- <- <-]. split; [apply inst_fields_of_store|].
      intros name Hne. now apply getattr_store_ne.
  - intros [= <- <- <-]. split; [apply inst_fields_of_store|].
    intros name Hne. now apply getattr_store_ne.
Qed.

Lemma _to_object_fields_app pre post s :
  _to_object_fields to_inst inst_fields roottype stack (pre ++ post) s =
    match _to_object_fields to_inst inst_fields roottype stack pre s with
    | (Return _, s') => _to_object_fields to_inst inst_fields roottype stack post s'
    | (Raise e, s') => (Raise e, s')
    end.
Proof.
  revert s. induction pre as [|[k v] pre IH]; intros s; [reflexivity|].
  cbn [app _to_object_fields]. unfold mbind, M_bind.
  destruct (_to_object_field _ _ _ _ k v s) as [[[]|e] s1]; [apply IH|reflexivity].
Qed.

(** The walk keeps the class of the instance and the fields its keys do not
    name, however it ends. *)
Lemma _to_object_fields_frame items inst w r inst' w' :
  _to_object_fields to_inst inst_fields roottype stack items (inst, w)
  = (r, (inst', w')) ->
  inst_fields_of inst' = inst_fields_of inst
  /\ forall name, assoc name items = None -> getattr inst' name = getattr inst name.
Proof.
  revert inst w. induction items as [|[k v] items IH]; intros inst w.
  - intros [= <- <- <-]. auto.
  - cbn [_to_object_fields]. unfold mbind, M_bind.
    destruct (_to_object_field _ _ _ _ k v (inst, w)) as [r1 [inst1 w1]] eqn:Hstep.
    apply _to_object_field_frame in Hstep as [Hf Hg].
    assert (Hname : forall name, assoc name ((k, v) :: items) = None ->
                                 name <> k /\ assoc name items = None).
    { intros name. cbn. destruct (String.eqb_spec name k); [discriminate|auto]. }
    destruct r1 as [[]|e].
    + intros Hrest. apply IH in Hrest as [Hf' Hg']. split; [congruence|].
      intros name Hn. apply Hname in Hn as [Hne Hn].
      rewrite (Hg' _ Hn). now apply Hg.
    + intros [= <- <- <-]. split; [exact Hf|].
      intros name Hn. apply Hname in Hn as [Hne _]. now apply Hg.
Qed.

End Walk.

Lemma stamp_header_frame inst w r inst' w' :
  stamp_header E (inst, w) = (r, (inst', w')) ->
  inst_fields_of inst' = inst_fields_of inst.
Proof.
  unfold stamp_header, get_rostime.
  destruct (rostime E (clock_reads w)) as [secs nsecs]. cbn.
  destruct (setattr inst "stamp" _) as [inst0|e] eqn:Hset.
  - intros [= <- <- <-]. now apply inst_fields_of_setattr in Hset.
  - now intros [= <- <- <-].
Qed.

(** [_to_object_inst] on a mapping, stage by stage. *)
Lemma _to_object_inst_unfold items rostype roottype inst stack w :
  _to_object_inst E (PyDict items) rostype roottype inst stack w =
    match (if py_in rostype ros_header_types then stamp_header E else mret tt)
            (inst, w) with
    | (Raise e, s) => (Raise e, s)
    | (Return _, (inst0, w0)) =>
        match inst_fields_of inst0 with
        | Raise e => (Raise e, (inst0, w0))
        | Return inst_fields =>
            match _to_object_fields (_to_inst E) inst_fields roottype stack items
                    (inst0, w0) with
            | (Return _, (inst', w')) => (Return inst', (inst', w'))
            | (Raise e, s) => (Raise e, s)
            end
        end
    end.
Proof.
  unfold _to_object_inst, _to_object_inst_with, mbind, M_bind, read_inst_fields,
    return_inst.
  destruct ((if py_in rostype ros_header_types then stamp_header E else mret tt)
              (inst, w)) as [[[]|e] [inst0 w0]]; [|reflexivity].
  destruct (inst_fields_of inst0) as [inst_fields|e]; [|reflexivity].
  destruct (_to_object_fields _ _ _ _ _ _) as [[[]|e] [inst' w']]; reflexivity.
Qed.

(** The call on a mapping goes through the call on any prefix of it. *)
Lemma _to_object_inst_app pre post rostype roottype inst stack w :
  _to_object_inst E (PyDict (pre ++ post)) rostype roottype inst stack w =
    match _to_object_inst E (PyDict pre) rostype roottype inst stack w with
    | (Raise e, s) => (Raise e, s)
    | (Return _, (inst1, w1)) =>
        match inst_fields_of inst1 with
        | Raise e => (Raise e, (inst1, w1))
        | Return inst_fields =>
            match _to_object_fields (_to_inst E) inst_fields roottype stack post
                    (inst1, w1) with
            | (Return _, (inst', w')) => (Return inst', (inst', w'))
            | (Raise e, s) => (Raise e, s)
            end
        end
    end.
Proof.
  rewrite !_to_object_inst_unfold.
  destruct ((if py_in rostype ros_header_types then stamp_header E else mret tt)
              (inst, w)) as [[[]|e] [inst0 w0]]; [|reflexivity].
  destruct (inst_fields_of inst0) as [inst_fields|e] eqn:Hf; [|reflexivity].
  rewrite _to_object_fields_app.
  destruct (_to_object_fields _ _ _ _ pre _) as [[[]|e] [inst1 w1]] eqn:Hpre;
    [|reflexivity].
  apply _to_object_fields_frame in Hpre as [Hf1 _].
  now rewrite Hf1, Hf.
Qed.

(** The call keeps the class of the target. *)
Lemma _to_object_inst_frame msg rostype roottype inst stack w r inst' w' :
  _to_object_inst E msg rostype roottype inst stack w = (r, (inst', w')) ->
  inst_fields_of inst' = inst_fields_of inst.
Proof.
  destruct msg;
    try (unfold _to_object_inst, _to_object_inst_with; now intros [= <- <- <-]).
  rewrite _to_object_inst_unfold.
  destruct ((if py_in rostype ros_header_types then stamp_header E else mret tt)
              (inst, w)) as [r0 [inst0 w0]] eqn:Hstamp.
  assert (H0 : inst_fields_of inst0 = inst_fields_of inst).
  { destruct (py_in rostype ros_header_types).
    - now apply stamp_header_frame in Hstamp.
    - now injection Hstamp as <- <- <-. }
  destruct r0 as [[]|e]; [|intros [= <- <- <-]; congruence].
  destruct (inst_fields_of inst0) as [inst_fields|e] eqn:Hfields;
    [|intros [= <- <- <-]; congruence].
  destruct (_to_object_fields _ _ _ _ _ _) as [r1 [inst1 w1]] eqn:Hwalk.
  apply _to_object_fields_frame in Hwalk as [Hf _].
  destruct r1 as [[]|e]; intros [= <- <- <-]; congruence.
Qed.

Lemma dict_zip_lookup names types name t :
  dict_zip names types !! name = Some t -> name ∈ names.
Proof.
  unfold dict_zip.
  assert (H : forall (l : list (string * string)) (m : gmap string string),
             foldl (fun m '(k, v) => <[k := v]> m) m l !! name = Some t ->
             m !! name = Some t \/ name ∈ l.*1).
  { induction l as [|[k v] l IH]; intros m; cbn; [auto|].
    intros Hl. apply IH in Hl as [Hl|Hl]; [|right; now right].
    apply lookup_insert_Some in Hl as [[<- _]|[_ Hl]]; [right; left|now left]. }
  intros Hl. apply H in Hl as [Hl|Hl]; [now rewrite lookup_empty in Hl|].
  clear -Hl. revert types Hl.
  induction names as [|n names IH]; intros [|ty types]; cbn; try (now intros ?%elem_of_nil).
  intros [->|Hl]%elem_of_cons; [left|right; eauto].
Qed.

Lemma inst_fields_of_slot inst inst_fields name t :
  inst_fields_of inst = Return inst_fields ->
  inst_fields !! name = Some t ->
  forall v, setattr inst name v = Return (store inst name v).
Proof.
  destruct inst as [| | | | | | | | |c attrs]; try discriminate.
  unfold inst_fields_of. cbn. destruct (_slot_types c) as [types|]; [|discriminate].
  cbn. intros [= <-] Hl v. apply dict_zip_lookup in Hl.
  unfold py_in. now rewrite bool_decide_eq_true_2.
Qed.

(** ** Unknown and known keys *)

(** C7.  For a target with fields [inst_fields], and a key reached after the
    keys [pre]: the call on a mapping that continues with a key that is not a
    field raises what the keys before it raised, if one did, and otherwise
    [NonexistentFieldException] with the root type and the path extended with
    the key, leaving the target as those keys left it; a key that is a field
    has its value deserialized against the field's type and path with the
    field's present value as [inst], and what that call returns is assigned
    to the field, the other fields staying as they were. *)
Theorem to_object_inst_key pre field_name field_msg rostype roottype inst stack
    w inst_fields :
  inst_fields_of inst = Return inst_fields ->
  (inst_fields !! field_name = None ->
   forall post,
     _to_object_inst E (PyDict (pre ++ (field_name, field_msg) :: post))
       rostype roottype inst stack w
     = match _to_object_inst E (PyDict pre) rostype roottype inst stack w with
       | (Raise e, s) => (Raise e, s)
       | (Return _, s) =>
           (Raise (NonexistentFieldException roottype (stack ++ [field_name])), s)
       end)
  /\ (forall field_rostype r1 inst1 w1 field_inst field_value field_inst' w2,
        inst_fields !! field_name = Some field_rostype ->
        _to_object_inst E (PyDict pre) rostype roottype inst stack w
        = (Return r1, (inst1, w1)) ->
        getattr inst1 field_name = Return field_inst ->
        _to_inst E field_msg field_rostype roottype field_inst
          (stack ++ [field_name]) w1
        = (Return field_value, (field_inst', w2)) ->
        exists inst2,
          _to_object_inst E (PyDict (pre ++ [(field_name, field_msg)]))
            rostype roottype inst stack w
          = (Return inst2, (inst2, w2))
          /\ getattr inst2 field_name = Return field_value
          /\ forall name, name <> field_name ->
                          getattr inst2 name = getattr inst1 name).
Proof.
  intros Hfields. split.
  - intros Hunknown post. rewrite _to_object_inst_app.
    destruct (_to_object_inst E (PyDict pre) rostype roottype inst stack w)
      as [[r1|e] [inst1 w1]] eqn:Hpre; [|reflexivity].
    apply _to_object_inst_frame in Hpre. rewrite Hpre, Hfields.
    cbn [_to_object_fields]. unfold mbind, M_bind.
    now rewrite _to_object_field_unknown.
  - intros field_rostype r1 inst1 w1 field_inst field_value field_inst' w2
      Hknown Hpre Hget Hrec.
    rewrite _to_object_inst_app, Hpre.
    apply _to_object_inst_frame in Hpre. rewrite Hpre, Hfields.
    cbn [_to_object_fields]. unfold mbind, M_bind, _to_object_field.
    rewrite Hknown, Hget, Hrec.
    assert (Hset : setattr (store inst1 field_name field_inst') field_name field_value
                   = Return (store (store inst1 field_name field_inst')
                               field_name field_value)).
    { eapply inst_fields_of_slot; [|exact Hknown].
      now rewrite inst_fields_of_store, Hpre. }
    rewrite Hset. cbn. eexists. split; [reflexivity|]. split.
    + eapply getattr_store_eq, getattr_store_eq, Hget.
    + intros name Hne. now rewrite !getattr_store_ne by congruence.
Qed.

(** ** No rollback *)

(** When the keys [pre] of a mapping have been walked, leaving the target as
    [inst1], and the step for the next key raises, the call raises the same
    exception and hands the target back as that step left it. *)
Lemma to_object_inst_abort pre field_name field_msg post rostype roottype
    inst stack w r1 inst1 w1 inst_fields e inst2 w2 :
  _to_object_inst E (PyDict pre) rostype roottype inst stack w
  = (Return r1, (inst1, w1)) ->
  inst_fields_of inst = Return inst_fields ->
  _to_object_field (_to_inst E) inst_fields roottype stack field_name field_msg
    (inst1, w1)
  = (Raise e, (inst2, w2)) ->
  _to_object_inst E (PyDict (pre ++ (field_name, field_msg) :: post))
    rostype roottype inst stack w
  = (Raise e, (inst2, w2))
  /\ forall name, name <> field_name -> getattr inst2 name = getattr inst1 name.
Proof.
  intros Hpre Hfields Hstep. split.
  - rewrite _to_object_inst_app, Hpre.
    apply _to_object_inst_frame in Hpre. rewrite Hpre, Hfields.
    cbn [_to_object_fields]. unfold mbind, M_bind. now rewrite Hstep.
  - now apply _to_object_field_frame in Hstep as [_ Hg].
Qed.

(** A walk that raises has walked some keys and raised at the next. *)
Lemma _to_object_fields_Raise to_inst inst_fields roottype stack items s e s2 :
  _to_object_fields to_inst inst_fields roottype stack items s = (Raise e, s2) ->
  exists pre field_name field_msg post s1,
    items = pre ++ (field_name, field_msg) :: post
    /\ _to_object_fields to_inst inst_fields roottype stack pre s = (Return (), s1)
    /\ _to_object_field to_inst inst_fields roottype stack field_name field_msg s1
       = (Raise e, s2).
Proof.
  revert s. induction items as [|[k v] items IH]; intros s; [discriminate|].
  cbn [_to_object_fields]. unfold mbind, M_bind.
  destruct (_to_object_field _ _ _ _ k v s) as [[[]|e1] s1] eqn:Hstep.
  - intros Hrest. apply IH in Hrest as (pre & k' & v' & post & s1' & -> & Hpre & Hk').
    exists ((k, v) :: pre), k', v', post, s1'. split; [reflexivity|].
    split; [|exact Hk'].
    cbn [_to_object_fields]. unfold mbind, M_bind. now rewrite Hstep.
  - intros [= <- <-]. now exists [], k, v, items, s.
Qed.

(** C8.  Whenever the call on a mapping raises, either it raises before its
    first key (it then raises the same on the empty mapping), or the mapping
    splits into keys [pre] that were walked, on which alone the call returns
    the target [inst1] with their fields assigned, a key whose step raised the
    exception, and keys never reached.  The target handed back with the
    exception is the one that step left: every field but the one of the
    failing key holds what it holds in [inst1].  Nothing is rolled back. *)
Theorem to_object_inst_no_rollback items rostype roottype inst stack w e inst2 w2 :
  _to_object_inst E (PyDict items) rostype roottype inst stack w
  = (Raise e, (inst2, w2)) ->
  _to_object_inst E (PyDict []) rostype roottype inst stack w
  = (Raise e, (inst2, w2))
  \/ exists pre field_name field_msg post inst1 w1 inst_fields,
       items = pre ++ (field_name, field_msg) :: post
       /\ _to_object_inst E (PyDict pre) rostype roottype inst stack w
          = (Return inst1, (inst1, w1))
       /\ inst_fields_of inst1 = Return inst_fields
       /\ _to_object_field (_to_inst E) inst_fields roottype stack
            field_name field_msg (inst1, w1)
          = (Raise e, (inst2, w2))
       /\ forall name, name <> field_name ->
                       getattr inst2 name = getattr inst1 name.
Proof.
  rewrite !_to_object_inst_unfold.
  destruct ((if py_in rostype ros_header_types then stamp_header E else mret tt)
              (inst, w)) as [[[]|e0] [inst0 w0]] eqn:Hstamp; [|now left].
  destruct (inst_fields_of inst0) as [inst_fields|e0] eqn:Hfields; [|now left].
  destruct (_to_object_fields _ _ _ _ items _) as [[[]|e0] s2] eqn:Hwalk.
  { destruct s2. discriminate. }
  intros [= -> ->]. right.
  apply _to_object_fields_Raise in Hwalk
    as (pre & k & v & post & [inst1 w1] & -> & Hpre & Hstep).
  exists pre, k, v, post, inst1, w1, inst_fields.
  split; [reflexivity|]. split.
  { rewrite _to_object_inst_unfold, Hstamp, Hfields, Hpre. reflexivity. }
  pose proof (_to_object_fields_frame _ _ _ _ _ _ _ _ _ _ Hpre) as [Hclass _].
  split; [congruence|]. split; [exact Hstep|].
  now apply _to_object_field_frame in Hstep as [_ Hg].
Qed.

(** ** The stamp of a header *)

Lemma stamp_header_Return inst w u inst0 w0 :
  stamp_header E (inst, w) = (Return u, (inst0, w0)) ->
  exists now, (get_rostime E w).1 = Return now
              /\ getattr inst0 "stamp" = Return now /\ w0 = tick w.
Proof.
  unfold stamp_header, get_rostime.
  destruct (rostime E (clock_reads w)) as [secs nsecs]. cbn.
  destruct (setattr inst "stamp" _) as [inst'|e] eqn:Hset; [|discriminate].
  intros [= _ <- <-]. eexists. split; [reflexivity|]. split; [|reflexivity].
  now apply getattr_setattr_eq in Hset.
Qed.

Lemma get_rostime_Time w :
  exists secs nsecs, (get_rostime E w).1 = Return (Time (PyInt secs) (PyInt nsecs)).
Proof.
  unfold get_rostime. destruct (rostime E (clock_reads w)) as [secs nsecs].
  now exists secs, nsecs.
Qed.

(** A mapping with [secs] and [nsecs] over a time: both are copied. *)
Lemma _to_time_inst_dict sd secs nsecs rostype a b w :
  assoc "secs" sd = Some secs ->
  assoc "nsecs" sd = Some nsecs ->
  _to_time_inst E (PyDict sd) rostype (Time a b) w
  = (Return (Time secs nsecs), (Time secs nsecs, w)).
Proof.
  intros Hs Hn. unfold _to_time_inst. cbn [is_str]. rewrite andb_false_r.
  cbn [is_none Time].
  unfold _to_time_field, try_except, mbind, M_bind, lift, assign, py_contains,
    py_getitem.
  rewrite Hs, Hn. cbn. reflexivity.
Qed.

(** C1, as the code has it.  For a header type the stamp is set from the
    clock before the keys of the mapping are walked.  When the call returns
    and the mapping has no [stamp] key, the stamp of the record is that clock
    value.  When the mapping has a [stamp] key holding a mapping with [secs]
    and [nsecs], and the field is a [time], the stamp of the record carries
    those two values. *)
Theorem to_object_inst_header_stamp items rostype roottype inst stack w r inst' w' :
  py_in rostype ros_header_types = true ->
  _to_object_inst E (PyDict items) rostype roottype inst stack w
  = (Return r, (inst', w')) ->
  (assoc "stamp" items = None -> getattr r "stamp" = (get_rostime E w).1)
  /\ (forall pre sd post secs nsecs inst_fields,
        items = pre ++ ("stamp", PyDict sd) :: post ->
        assoc "stamp" pre = None -> assoc "stamp" post = None ->
        inst_fields_of inst = Return inst_fields ->
        inst_fields !! "stamp" = Some "time" ->
        assoc "secs" sd = Some secs -> assoc "nsecs" sd = Some nsecs ->
        getattr r "stamp" = Return (Time secs nsecs)).
Proof.
  intros Hheader. rewrite _to_object_inst_unfold, Hheader.
  destruct (stamp_header E (inst, w)) as [[[]|e] [inst0 w0]] eqn:Hstamp;
    [|discriminate].
  pose proof (stamp_header_frame _ _ _ _ _ Hstamp) as Hclass.
  apply stamp_header_Return in Hstamp as (now & Hnow & Hget0 & ->).
  destruct (inst_fields_of inst0) as [fields|e] eqn:Hfields; [|discriminate].
  destruct (_to_object_fields _ _ _ _ items _) as [[[]|e] [inst1 w1]] eqn:Hwalk;
    [|discriminate].
  intros [= <- <- <-]. split.
  - intros Hnone. apply _to_object_fields_frame in Hwalk as [_ Hg].
    now rewrite (Hg _ Hnone), Hget0.
  - intros pre sd post secs nsecs inst_fields -> Hpre Hpost Hf Htime Hs Hn.
    assert (fields = inst_fields) as -> by congruence.
    rewrite _to_object_fields_app in Hwalk.
    destruct (_to_object_fields _ _ _ _ pre _) as [[[]|e] [instp wp]] eqn:Hwp;
      [|discriminate].
    apply _to_object_fields_frame in Hwp as [_ Hgp].
    specialize (Hgp _ Hpre). rewrite Hget0 in Hgp.
    cbn [_to_object_fields] in Hwalk. unfold mbind, M_bind in Hwalk.
    destruct (_to_object_field _ _ _ _ "stamp" _ _) as [[[]|e] [insts ws]] eqn:Hstep;
      [|discriminate].
    apply _to_object_fields_frame in Hwalk as [_ Hgq].
    rewrite (Hgq _ Hpost).
    unfold _to_object_field in Hstep. rewrite Htime, Hgp in Hstep.
    destruct (get_rostime_Time w) as (s0 & n0 & Hnow').
    assert (now = Time (PyInt s0) (PyInt n0)) as -> by congruence.
    rewrite _to_inst_unfold in Hstep. cbn [py_in] in Hstep.
    change (py_in "time" ros_binary_types) with false in Hstep.
    change (py_in "time" ros_time_types) with true in Hstep.
    cbv iota in Hstep.
    rewrite (_to_time_inst_dict sd secs nsecs) in Hstep by assumption.
    destruct (setattr _ "stamp" (Time secs nsecs)) as [inst2|e] eqn:Hset;
      [|discriminate].
    injection Hstep as <- <-.
    now apply getattr_setattr_eq in Hset.
Qed.

(** ** A missing target *)

(** C9, as the code has it.  [populate_instance] reads the type off its
    target: with [None] for a target it raises [AttributeError], whatever
    the value.  [_to_inst], which is given the type, takes [None]: for a type
    that is not binary, time or primitive it resolves the class through the
    registry, and deserializes into a new instance of it. *)
Theorem to_inst_without_target msg rostype roottype stack w :
  populate_instance E msg PyNone w = (Raise (AttributeError "_type"), (PyNone, w))
  /\ (is_record_type rostype = true ->
      _to_inst E msg rostype roottype PyNone stack w
      = match _get_msg_class E rostype w with
        | (Raise e, w') => (Raise e, (PyNone, w'))
        | (Return cls, w') =>
            let '(r, (_, w'')) :=
              _to_object_inst E msg rostype roottype (new cls) stack w' in
            (r, (PyNone, w''))
        end).
Proof.
  split; [reflexivity|]. unfold is_record_type.
  intros [[Hb Ht]%andb_true_iff Hp]%andb_true_iff.
  rewrite negb_true_iff in Hb, Ht, Hp.
  rewrite _to_inst_unfold, Hb, Ht, Hp. reflexivity.
Qed.

End DeserializerFacts.

(** ** The properties on the small installation *)

Lemma to_object_inst_key_witness :
  inst_fields_of (new Demo.Reading)
  = Return (dict_zip (__slots__ Demo.Reading_info)
              ["std_msgs/Header"; "int32"; "float64"; "int32[]"; "uint8[]"])
  /\ _to_object_inst Demo.env
       (PyDict ([("count", PyInt 3)] ++ [("foo", PyInt 1)]))
       "demo_msgs/Reading" "demo_msgs/Reading" (new Demo.Reading) [] initial_world
     = (Raise (NonexistentFieldException "demo_msgs/Reading" ["foo"]),
        (store (new Demo.Reading) "count" (PyInt 3), initial_world))
  /\ exists inst2,
       _to_object_inst Demo.env
         (PyDict ([("count", PyInt 3)] ++ [("level", PyFloat 7)]))
         "demo_msgs/Reading" "demo_msgs/Reading" (new Demo.Reading) [] initial_world
       = (Return inst2, (inst2, initial_world))
       /\ getattr inst2 "level" = Return (PyFloat 7)
       /\ getattr inst2 "count" = Return (PyInt 3).
Proof.
  split; [reflexivity|].
  destruct (to_object_inst_key Demo.env [("count", PyInt 3)] "foo" (PyInt 1)
              "demo_msgs/Reading" "demo_msgs/Reading" (new Demo.Reading) []
              initial_world _ eq_refl) as [Hunknown _].
  destruct (to_object_inst_key Demo.env [("count", PyInt 3)] "level" (PyFloat 7)
              "demo_msgs/Reading" "demo_msgs/Reading" (new Demo.Reading) []
              initial_world _ eq_refl) as [_ Hknown].
  split.
  - rewrite Hunknown by reflexivity. reflexivity.
  - destruct (Hknown "float64" (store (new Demo.Reading) "count" (PyInt 3))
                (store (new Demo.Reading) "count" (PyInt 3)) initial_world
                (PyFloat 0) (PyFloat 7) (PyFloat 0) initial_world
                eq_refl eq_refl eq_refl eq_refl)
      as (inst2 & Hcall & Hlevel & Hothers).
    exists inst2. split; [exact Hcall|]. split; [exact Hlevel|].
    now rewrite Hothers.
Defined.

(** A type mismatch on the second of three keys: the first stays assigned. *)
Example to_object_inst_abort_mismatch :
  _to_object_inst Demo.env
    (PyDict ([("count", PyInt 3)] ++ ("level", PyStr "high") :: [("raw", PyStr "")]))
    "demo_msgs/Reading" "demo_msgs/Reading" (new Demo.Reading) [] initial_world
  = (Raise (FieldTypeMismatchException "demo_msgs/Reading" ["level"] "float64" "str"),
     (store (new Demo.Reading) "count" (PyInt 3), initial_world))
  /\ getattr (store (new Demo.Reading) "count" (PyInt 3)) "count" = Return (PyInt 3)
  /\ getattr (new Demo.Reading) "count" = Return (PyInt 0).
Proof.
  split; [|split; reflexivity].
  eapply (to_object_inst_abort Demo.env [("count", PyInt 3)] "level"
            (PyStr "high") [("raw", PyStr "")] "demo_msgs/Reading"
            "demo_msgs/Reading" (new Demo.Reading) [] initial_world).
  - reflexivity.
  - reflexivity.
  - reflexivity.
Qed.

Lemma to_object_inst_no_rollback_witness :
  exists pre field_name field_msg post inst1 w1 inst_fields,
    [("count", PyInt 3); ("level", PyStr "high"); ("raw", PyStr "")]
    = pre ++ (field_name, field_msg) :: post
    /\ _to_object_inst Demo.env (PyDict pre) "demo_msgs/Reading"
         "demo_msgs/Reading" (new Demo.Reading) [] initial_world
       = (Return inst1, (inst1, w1))
    /\ inst_fields_of inst1 = Return inst_fields
    /\ _to_object_field (_to_inst Demo.env) inst_fields "demo_msgs/Reading" []
         field_name field_msg (inst1, w1)
       = (Raise (FieldTypeMismatchException "demo_msgs/Reading" ["level"]
                   "float64" "str"),
          (store (new Demo.Reading) "count" (PyInt 3), initial_world))
    /\ forall name, name <> field_name ->
                    getattr (store (new Demo.Reading) "count" (PyInt 3)) name
                    = getattr inst1 name.
Proof.
  destruct (to_object_inst_no_rollback Demo.env
              [("count", PyInt 3); ("level", PyStr "high"); ("raw", PyStr "")]
              "demo_msgs/Reading" "demo_msgs/Reading" (new Demo.Reading) []
              initial_world
              (FieldTypeMismatchException "demo_msgs/Reading" ["level"]
                 "float64" "str")
              (store (new Demo.Reading) "count" (PyInt 3)) initial_world eq_refl)
    as [Hbefore|Hsplit].
  - discriminate Hbefore.
  - exact Hsplit.
Defined.

(** C1 as stated fails: a [stamp] in the mapping is not ignored.  The clock
    reads (1700000000, 42); the record comes back stamped (5, 7). *)
Lemma header_stamp_not_ignored :
  py_in "std_msgs/Header" ros_header_types = true
  /\ (get_rostime Demo.env initial_world).1
     = Return (Time (PyInt 1700000000) (PyInt 42))
  /\ exists r s,
       populate_instance Demo.env
         (PyDict [("frame_id", PyStr "base");
                  ("stamp", PyDict [("secs", PyInt 5); ("nsecs", PyInt 7)])])
         (new Demo.Header) initial_world
       = (Return r, s)
       /\ getattr r "stamp" = Return (Time (PyInt 5) (PyInt 7))
       /\ getattr r "stamp" <> (get_rostime Demo.env initial_world).1.
Proof.
  split; [reflexivity|]. split; [reflexivity|].
  eexists. eexists. split; [reflexivity|]. split; [reflexivity|].
  cbn. discriminate.
Qed.

Lemma to_object_inst_header_stamp_witness :
  exists r s,
    _to_object_inst Demo.env (PyDict [("frame_id", PyStr "base")])
      "std_msgs/Header" "std_msgs/Header" (new Demo.Header) [] initial_world
    = (Return r, s)
    /\ getattr r "frame_id" = Return (PyBytes (list_byte_of_string "base"))
    /\ getattr r "stamp" = (get_rostime Demo.env initial_world).1.
Proof.
  eexists. eexists. split; [reflexivity|]. split; [reflexivity|].
  apply (proj1 (to_object_inst_header_stamp Demo.env [("frame_id", PyStr "base")]
                  "std_msgs/Header" "std_msgs/Header" (new Demo.Header) []
                  initial_world _ _ _ eq_refl eq_refl)).
  reflexivity.
Defined.

(** C9 as stated fails: the deserializing entry point does not take [None]
    for a target. *)
Lemma populate_instance_without_target :
  populate_instance Demo.env (PyDict [("seq", PyInt 3)]) PyNone initial_world
  = (Raise (AttributeError "_type"), (PyNone, initial_world)).
Proof. reflexivity. Qed.

Lemma to_inst_without_target_witness :
  exists r w,
    _to_inst Demo.env (PyDict [("seq", PyInt 3)]) "std_msgs/Header" "std_msgs/Header"
      PyNone [] initial_world
    = (Return r, (PyNone, w))
    /\ getattr r "seq" = Return (PyInt 3)
    /\ _loaded_msgs w !! "std_msgs/Header" = Some Demo.Header.
Proof.
  destruct (to_inst_without_target Demo.env (PyDict [("seq", PyInt 3)])
              "std_msgs/Header" "std_msgs/Header" [] initial_world) as [_ H].
  rewrite H by reflexivity. eexists. eexists. split; [vm_compute; reflexivity|].
  split; vm_compute; reflexivity.
Defined.

(** ** Round trip *)

(** Induction on a value, through the lists it is nested in. *)
Lemma pyval_nested_ind (P : pyval -> Prop) :
  P PyNone ->
  (forall b, P (PyBool b)) ->
  (forall z, P (PyInt z)) ->
  (forall bits, P (PyFloat bits)) ->
  (forall s, P (PyStr s)) ->
  (forall b, P (PyBytes b)) ->
  (forall l, Forall P l -> P (PyList l)) ->
  (forall l, Forall P l -> P (PyTuple l)) ->
  (forall items, Forall (fun kv => P kv.2) items -> P (PyDict items)) ->
  (forall c attrs, Forall (fun kv => P kv.2) attrs -> P (PyInst c attrs)) ->
  forall v, P v.
Proof.
  intros HNone HBool HInt HFloat HStr HBytes HList HTuple HDict HInst.
  fix IH 1. intros [|b|z|bits|s|b|l|l|items|c attrs].
  - exact HNone.
  - apply HBool.
  - apply HInt.
  - apply HFloat.
  - apply HStr.
  - apply HBytes.
  - apply HList. induction l as [|x l IHl]; constructor; [apply IH|exact IHl].
  - apply HTuple. induction l as [|x l IHl]; constructor; [apply IH|exact IHl].
  - apply HDict. induction items as [|[k x] l IHl]; constructor; [apply IH|exact IHl].
  - apply HInst. induction attrs as [|[k x] l IHl]; constructor; [apply IH|exact IHl].
Qed.

Section CacheSound.

Variable E : rosenv.

Lemma resolve_cold_unfold typestring :
  resolve_cold E typestring =
    match _splittype typestring with
    | Raise e => Raise e
    | Return [modname; classname] =>
        (_load_class E modname "msg" classname initial_world).1
    | Return _ => Raise (ValueError "too many values to unpack")
    end.
Proof.
  unfold resolve_cold, _get_msg_class. rewrite _get_class_unfold. cbv zeta.
  change (cache_of Loaded_msgs initial_world) with (∅ : gmap string pyclass).
  rewrite lookup_empty.
  destruct (_splittype typestring) as [[|m [|c [|? ?]]]|e]; try reflexivity.
  rewrite lookup_empty.
  now destruct (_load_class E m "msg" c initial_world).1.
Qed.

Lemma cache_sound_initial : cache_sound E initial_world.
Proof. intros key cls. cbn. now rewrite lookup_empty. Qed.


(** On a sound cache a resolution gives what a cold one gives, and the cache
    stays sound. *)
Lemma _get_msg_class_sound typestring w :
  cache_sound E w ->
  exists w', _get_msg_class E typestring w = (resolve_cold E typestring, w')
             /\ cache_sound E w'.
Proof.
  intros Hw. unfold _get_msg_class. rewrite _get_class_unfold. cbv zeta.
  assert (Hw1 : cache_sound E (lock_set Msgs_lock false (lock_set Msgs_lock true w)))
    by exact Hw.
  change (cache_of Loaded_msgs w) with (_loaded_msgs w).
  destruct (_loaded_msgs w !! typestring) as [cls|] eqn:Hhit.
  { apply Hw in Hhit. rewrite Hhit. eauto. }
  rewrite resolve_cold_unfold.
  destruct (_splittype typestring) as [l|e] eqn:Hs; [|eauto].
  destruct (_splittype_Return _ _ Hs) as (m & c & -> & Hmc).
  destruct (_loaded_msgs w !! (m +:+ "/" +:+ c)) as [cls|] eqn:Hnorm.
  { apply Hw in Hnorm. rewrite resolve_cold_unfold in Hnorm.
    unfold _splittype in Hnorm. rewrite (splits_normalised _ _ _ Hmc) in Hnorm.
    cbn in Hnorm. rewrite Hnorm. eauto. }
  destruct (_load_class E m "msg" c initial_world).1 as [cls|e] eqn:Hload;
    [|eexists; split; [reflexivity|exact Hw]].
  eexists. split; [reflexivity|].
  intros key cls'. cbn.
  intros H. apply lookup_insert_Some in H as [[<- <-]|[_ H]].
  - rewrite resolve_cold_unfold. unfold _splittype.
    rewrite (splits_normalised _ _ _ Hmc). exact Hload.
  - apply lookup_insert_Some in H as [[<- <-]|[_ H]].
    + now rewrite resolve_cold_unfold, Hs.
    + now apply Hw.
Qed.

End CacheSound.






Lemma assoc_Some_elem_of {A} k (v : A) l : assoc k l = Some v -> (k, v) ∈ l.
Proof.
  induction l as [|[k' v'] l IH]; [discriminate|]. cbn.
  destruct (String.eqb_spec k k') as [->|_].
  - intros [= ->]. left.
  - intros H. right. auto.
Qed.

Lemma assoc_map {A B} (f : A -> B) k (l : list (string * A)) :
  assoc k (map (fun '(n, x) => (n, f x)) l) = f <$> assoc k l.
Proof.
  induction l as [|[k' v'] l IH]; [reflexivity|]. cbn.
  now destruct (String.eqb k k').
Qed.


Section RoundTrip.

Variable E : rosenv.



Lemma primitive_not_time rostype :
  py_in rostype ros_primitive_types = true -> py_in rostype ros_time_types = false.
Proof.
  unfold py_in. intros H%bool_decide_eq_true. unfold ros_primitive_types in H.
  repeat (apply elem_of_cons in H as [->|H]; [reflexivity|]).
  now apply elem_of_nil in H.
Qed.

Lemma _from_inst_primitive x rostype :
  py_in rostype ros_binary_types = false ->
  py_in rostype ros_primitive_types = true ->
  _from_inst x rostype = Return x.
Proof.
  intros Hb Hp. pose proof (primitive_not_time _ Hp) as Ht.
  destruct x; cbn [_from_inst]; now rewrite Hb, Ht, Hp.
Qed.

Lemma is_record_type_true rostype :
  is_record_type rostype = true ->
  py_in rostype ros_binary_types = false
  /\ py_in rostype ros_time_types = false
  /\ py_in rostype ros_primitive_types = false.
Proof.
  unfold is_record_type.
  intros [[Hb Ht]%andb_true_iff Hp]%andb_true_iff.
  now rewrite !negb_true_iff in *.
Qed.



Lemma M_bind_run {S A B} (m : M S A) (k : A -> M S B) s :
  (m ≫= k) s = match m s with
               | (Return a, s') => k a s'
               | (Raise e, s') => (Raise e, s')
               end.
Proof. reflexivity. Qed.

Lemma mapM_world_cons {A B} (f : A -> M world B) x l w :
  mapM f (x :: l) w =
    match f x w with
    | (Return y, w1) =>
        match mapM f l w1 with
        | (Return k, w2) => (Return (y :: k), w2)
        | (Raise e, w2) => (Raise e, w2)
        end
    | (Raise e, w1) => (Raise e, w1)
    end.
Proof.
  cbn. unfold mbind, M_bind. destruct (f x w) as [[y|e] w1]; [|reflexivity].
  now destruct (mapM f l w1) as [[k|e] w2].
Qed.

Lemma mapM_outcome_cons {A B} (f : A -> outcome B) x l :
  mapM f (x :: l) =
    match f x with
    | Return y =>
        match mapM f l with
        | Return k => Return (y :: k)
        | Raise e => Raise e
        end
    | Raise e => Raise e
    end.
Proof.
  cbn. destruct (f x) as [y|e]; [|reflexivity]. cbn.
  now destruct (mapM f l) as [k|e].
Qed.












End RoundTrip.


(** A text field is outside the round trip of the theorem: it comes back as
    a byte string. *)
Example roundtrip_text_field :
  exists msg r s,
    extract_values Demo.a_header = Return msg
    /\ populate_instance Demo.env msg (new Demo.Header) initial_world = (Return r, s)
    /\ getattr Demo.a_header "frame_id" = Return (PyStr "")
    /\ getattr r "frame_id" = Return (PyBytes []).
Proof. eexists _, _, _. repeat split; reflexivity. Qed.

(** A tuple is outside the round trip too: it comes back as a list. *)
Example roundtrip_tuple_field :
  let R := PyInst Demo.Track_info
             [("header", PyInst Demo.Mark_info
                           [("seq", PyInt 4); ("stamp", Time (PyInt 5) (PyInt 7))]);
              ("samples", PyTuple [Demo.a_sample]);
              ("span", Duration (PyInt 1) (PyInt 2))] in
  exists msg r s,
    extract_values R = Return msg
    /\ populate_instance Demo.env msg (new Demo.Track) initial_world = (Return r, s)
    /\ getattr R "samples" = Return (PyTuple [Demo.a_sample])
    /\ getattr r "samples" = Return (PyList [Demo.a_sample]).
Proof. eexists _, _, _. repeat split; vm_compute; reflexivity. Qed.

(** So is a list of records whose type the registry does not resolve: the
    elements have no target, and [Header] alone is no type string of the
    registry. *)
Example roundtrip_unresolved_elements :
  let c := {| cls_name := "Marks"; _type := Some "demo_msgs/Marks";
              __slots__ := ["marks"]; _slot_types := Some ["Header[]"] |} in
  let R := PyInst c [("marks", PyList [new Demo.Mark])] in
  exists msg,
    extract_values R = Return msg
    /\ (populate_instance Demo.env msg (PyInst c [("marks", PyList [])])
          initial_world).1
       = Raise (InvalidTypeStringException "Header").
Proof. eexists. split; [vm_compute; reflexivity|]. vm_compute. reflexivity. Qed.




(** ** What every call keeps true of the world *)

Section WorldInvariant.

Variable E : rosenv.

(** A property of the world that reading the clock and resolving a class
    keep. *)
Variable P : world -> Prop.
Hypothesis P_tick : forall w, P w -> P (tick w).
Hypothesis P_get_msg_class :
  forall typestring w, P w -> P (_get_msg_class E typestring w).2.

Lemma _to_time_inst_keeps msg rostype inst w :
  P w -> P (_to_time_inst E msg rostype inst w).2.2.
Proof.
  intros Hw. unfold _to_time_inst.
  destruct (String.eqb rostype "time" && is_str "now" msg).
  - unfold get_rostime. destruct (rostime E (clock_reads w)). cbn. auto.
  - destruct (is_none inst).
    + destruct (String.eqb rostype "time"); [exact Hw|].
      destruct (String.eqb rostype "duration"); exact Hw.
    + destruct ((_to_time_field msg "secs";; _to_time_field msg "nsecs") inst)
        as [[[]|e] inst']; exact Hw.
Qed.

Local Abbreviation keeps := (fun msg : pyval =>
  forall rostype roottype inst stack w,
    P w -> P (_to_inst E msg rostype roottype inst stack w).2.2).

Lemma _to_list_elems_keep rostype roottype stack l :
  Forall keeps l ->
  forall w, P w ->
            P (mapM (_to_list_elem (_to_inst E) rostype roottype stack) l w).2.
Proof.
  induction 1 as [|x l Hx Hl IH]; intros w Hw; [exact Hw|].
  rewrite mapM_world_cons. unfold _to_list_elem at 1.
  specialize (Hx rostype roottype PyNone stack w Hw).
  destruct (_to_inst E x rostype roottype PyNone stack w) as [[y|e] [seed w1]];
    [|exact Hx].
  specialize (IH w1 Hx).
  destruct (mapM (_to_list_elem (_to_inst E) rostype roottype stack) l w1)
    as [[k|e] w2]; exact IH.
Qed.

Lemma _to_list_inst_keeps msg rostype roottype inst stack w :
  match msg with PyList l | PyTuple l => Forall keeps l | _ => True end ->
  P w -> P (_to_list_inst E msg rostype roottype inst stack w).2.
Proof.
  intros Hall Hw. unfold _to_list_inst, _to_list_inst_with.
  destruct msg as [| | | | | |l|l| |]; try exact Hw;
    (destruct (Nat.eqb (length l) 0); [exact Hw|];
     rewrite M_bind_run;
     pose proof (_to_list_elems_keep (list_braces_sub rostype) roottype stack l
                   Hall w Hw) as Hl;
     destruct (mapM (_to_list_elem (_to_inst E) (list_braces_sub rostype)
                       roottype stack) l w) as [[k|e] w1]; exact Hl).
Qed.

Lemma _to_object_fields_keep inst_fields roottype stack items :
  Forall (fun kv => keeps kv.2) items ->
  forall inst w,
    P w ->
    P (_to_object_fields (_to_inst E) inst_fields roottype stack items (inst, w)).2.2.
Proof.
  induction 1 as [|[k v] items Hv Hitems IH]; intros inst w Hw; [exact Hw|].
  cbn [_to_object_fields]. rewrite M_bind_run.
  assert (Hstep : P (_to_object_field (_to_inst E) inst_fields roottype stack k v
                       (inst, w)).2.2).
  { unfold _to_object_field.
    destruct (inst_fields !! k) as [ty|]; [|exact Hw].
    destruct (getattr inst k) as [field_inst|e]; [|exact Hw].
    specialize (Hv ty roottype field_inst (stack ++ [k]) w Hw). cbn [snd] in Hv.
    destruct (_to_inst E v ty roottype field_inst (stack ++ [k]) w)
      as [[fv|e] [fi' w1]]; [|exact Hv].
    destruct (setattr _ k fv); exact Hv. }
  destruct (_to_object_field _ _ _ _ k v (inst, w)) as [[[]|e] [inst1 w1]];
    [|exact Hstep].
  now apply IH.
Qed.

Lemma _to_object_inst_keeps msg rostype roottype inst stack w :
  match msg with PyDict items => Forall (fun kv => keeps kv.2) items | _ => True end ->
  P w -> P (_to_object_inst E msg rostype roottype inst stack w).2.2.
Proof.
  intros Hall Hw.
  destruct msg as [| | | | | | | |items|]; try exact Hw.
  rewrite _to_object_inst_unfold.
  assert (Hstamp : P ((if py_in rostype ros_header_types then stamp_header E
                       else mret tt) (inst, w)).2.2).
  { destruct (py_in rostype ros_header_types); [|exact Hw].
    unfold stamp_header, get_rostime. destruct (rostime E (clock_reads w)). cbn.
    destruct (setattr inst "stamp" _); cbn; auto. }
  destruct ((if py_in rostype ros_header_types then stamp_header E else mret tt)
              (inst, w)) as [[[]|e] [inst0 w0]]; [|exact Hstamp].
  destruct (inst_fields_of inst0) as [inst_fields|e]; [|exact Hstamp].
  pose proof (_to_object_fields_keep inst_fields roottype stack items Hall inst0 w0
                Hstamp) as Hwalk.
  destruct (_to_object_fields _ _ _ _ items _) as [[[]|e] [inst1 w1]]; exact Hwalk.
Qed.

(** Deserializing keeps the property, whatever the value and the target. *)
Lemma _to_inst_keeps msg : keeps msg.
Proof.
  assert (Hstep : forall msg,
             match msg with
             | PyList l | PyTuple l => Forall keeps l
             | PyDict items => Forall (fun kv => keeps kv.2) items
             | _ => True
             end -> keeps msg).
  { clear msg. intros msg Hall rostype roottype inst stack w Hw.
    rewrite _to_inst_unfold.
    destruct (py_in rostype ros_binary_types); [exact Hw|].
    destruct (py_in rostype ros_time_types); [now apply _to_time_inst_keeps|].
    destruct (py_in rostype ros_primitive_types); [exact Hw|].
    destruct (negb (is_none inst) && is_list_type inst).
    - assert (Hl : P (_to_list_inst E msg rostype roottype inst stack w).2).
      { apply _to_list_inst_keeps; [|exact Hw]. now destruct msg. }
      now destruct (_to_list_inst E msg rostype roottype inst stack w).
    - assert (Hobj : forall inst' w', P w' ->
                 P (_to_object_inst E msg rostype roottype inst' stack w').2.2).
      { intros inst' w' Hw'. apply _to_object_inst_keeps; [|exact Hw'].
        now destruct msg. }
      destruct (is_none inst); [|now apply Hobj].
      pose proof (P_get_msg_class rostype w Hw) as Hget.
      destruct (_get_msg_class E rostype w) as [[cls|e] w1]; [|exact Hget].
      specialize (Hobj (new cls) w1 Hget).
      now destruct (_to_object_inst E msg rostype roottype (new cls) stack w1)
        as [r [i w2]]. }
  induction msg using pyval_nested_ind; apply Hstep; auto.
Qed.

Lemma populate_instance_keeps msg inst w :
  P w -> P (populate_instance E msg inst w).2.2.
Proof.
  intros Hw. unfold populate_instance.
  destruct (attr__type inst); [now apply _to_inst_keeps|exact Hw].
Qed.

End WorldInvariant.

(** The keys of the message cache split in two, and the cache holds what a
    cold resolution gives, in every world the module's calls lead to. *)
Lemma populate_instance_keys_split E msg inst w :
  keys_split Loaded_msgs w ->
  keys_split Loaded_msgs (populate_instance E msg inst w).2.2.
Proof.
  apply (populate_instance_keeps E (keys_split Loaded_msgs)).
  - intros w0 H. exact H.
  - intros typestring w0 H. now apply _get_class_keys_split.
Qed.

Lemma populate_instance_cache_sound E msg inst w :
  cache_sound E w -> cache_sound E (populate_instance E msg inst w).2.2.
Proof.
  apply (populate_instance_keeps E (cache_sound E)).
  - intros w0 H. exact H.
  - intros typestring w0 H.
    destruct (_get_msg_class_sound E typestring w0 H) as (w' & Hget & Hw').
    now rewrite Hget.
Qed.

(** * Further properties *)

(** ** The registry: what a call leaves behind *)

Section RegistryFrame.

Variable E : rosenv.

Lemma clock_reads_lock_set lock held w :
  clock_reads (lock_set lock held w) = clock_reads w.
Proof. now destruct lock. Qed.

Lemma clock_reads_setitem cache key value w :
  clock_reads (cache_setitem cache key value w) = clock_reads w.
Proof. now destruct cache. Qed.

Lemma cache_of_setitem_ne cache cache' key value w :
  cache <> cache' ->
  cache_of cache' (cache_setitem cache key value w) = cache_of cache' w.
Proof. destruct cache, cache'; intros H; try reflexivity; now destruct H. Qed.

Lemma lock_held_lock_set_ne lock lock' held w :
  lock <> lock' -> lock_held lock' (lock_set lock held w) = lock_held lock' w.
Proof. destruct lock, lock'; intros H; try reflexivity; now destruct H. Qed.

Lemma lock_held_setitem cache lock key value w :
  lock_held lock (cache_setitem cache key value w) = lock_held lock w.
Proof. now destruct cache, lock. Qed.

Lemma lock_held_log_load lock call w :
  lock_held lock (log_load call w) = lock_held lock w.
Proof. now destruct lock. Qed.

Hint Rewrite cache_of_lock_set cache_of_log_load cache_of_setitem
  load_calls_lock_set load_calls_setitem lock_held_lock_set
  clock_reads_lock_set clock_reads_setitem lock_held_setitem
  lock_held_log_load : world.

(** X1.  Whatever a call of [_get_class] returns or raises: its lock is free
    afterwards, the other lock and the other cache are as before, the clock is
    not read, every key that was cached is still cached with the same class,
    and [_load_class] was called once at most. *)
Theorem get_class_frame typestring subname cache lock w :
  let w' := (_get_class E typestring subname cache lock w).2 in
  lock_held lock w' = false
  /\ (forall lock', lock <> lock' -> lock_held lock' w' = lock_held lock' w)
  /\ (forall cache', cache <> cache' -> cache_of cache' w' = cache_of cache' w)
  /\ clock_reads w' = clock_reads w
  /\ (forall key cls, cache_of cache w !! key = Some cls ->
                      cache_of cache w' !! key = Some cls)
  /\ (load_calls w' = load_calls w
      \/ exists call, load_calls w' = load_calls w ++ [call]).
Proof.
  cbv zeta. rewrite _get_class_unfold. cbv zeta.
  assert (Hsame : forall r : outcome pyclass,
             let w' := (r, lock_set lock false (lock_set lock true w)).2 in
             lock_held lock w' = false
             /\ (forall lock', lock <> lock' -> lock_held lock' w' = lock_held lock' w)
             /\ (forall cache', cache <> cache' ->
                                cache_of cache' w' = cache_of cache' w)
             /\ clock_reads w' = clock_reads w
             /\ (forall key cls, cache_of cache w !! key = Some cls ->
                                 cache_of cache w' !! key = Some cls)
             /\ (load_calls w' = load_calls w
                 \/ exists call, load_calls w' = load_calls w ++ [call])).
  { intros r. cbn [snd]. autorewrite with world.
    repeat split; auto.
    - intros lock' Hne. now rewrite !lock_held_lock_set_ne.
    - intros cache' _. now rewrite !cache_of_lock_set. }
  destruct (cache_of cache w !! typestring) eqn:Hhit; [apply Hsame|].
  destruct (_splittype typestring) as [[|m [|c [|? ?]]]|e]; try apply Hsame.
  destruct (cache_of cache w !! (m +:+ "/" +:+ c)) eqn:Hnorm; [apply Hsame|].
  destruct (_load_class E m subname c initial_world).1 as [cls|e]; cbn [snd].
  - repeat split.
    + apply lock_held_lock_set.
    + intros lock' Hne.
      rewrite lock_held_lock_set_ne, !lock_held_setitem by exact Hne.
      rewrite lock_held_lock_set_ne, lock_held_log_load by exact Hne.
      now rewrite !lock_held_lock_set_ne.
    + intros cache' Hne.
      rewrite cache_of_lock_set, !cache_of_setitem_ne by exact Hne.
      now rewrite cache_of_lock_set, cache_of_log_load, !cache_of_lock_set.
    + now destruct w, lock, cache.
    + intros key cls' Hkey.
      rewrite cache_of_lock_set, !cache_of_setitem.
      rewrite cache_of_lock_set, cache_of_log_load, !cache_of_lock_set.
      rewrite !lookup_insert_ne by congruence. exact Hkey.
    + right. exists (m, subname, c). now destruct w, lock, cache.
  - repeat split.
    + rewrite lock_held_log_load. apply lock_held_lock_set.
    + intros lock' Hne. rewrite lock_held_log_load.
      now rewrite !lock_held_lock_set_ne.
    + intros cache' _. now rewrite cache_of_log_load, !cache_of_lock_set.
    + now destruct w, lock.
    + intros key cls' Hkey.
      now rewrite cache_of_log_load, !cache_of_lock_set.
    + right. exists (m, subname, c). now destruct w, lock.
Qed.

(** X2.  A call of [_get_class] that raises caches nothing: the cache is as
    it was, so the next call for the same string goes through the same
    steps, the load included. *)
Theorem get_class_raise_caches_nothing typestring subname cache lock w e w' :
  _get_class E typestring subname cache lock w = (Raise e, w') ->
  cache_of cache w' = cache_of cache w
  /\ (_get_class E typestring subname cache lock w').1 = Raise e.
Proof.
  rewrite _get_class_unfold. cbv zeta. intros Hcall.
  assert (Hagain : cache_of cache w' = cache_of cache w ->
                   (_get_class E typestring subname cache lock w').1 = Raise e).
  { intros Hc. rewrite _get_class_unfold. cbv zeta. rewrite Hc.
    destruct (cache_of cache w !! typestring); [discriminate Hcall|].
    destruct (_splittype typestring) as [[|m [|c [|? ?]]]|e0];
      try (now injection Hcall as <- _).
    destruct (cache_of cache w !! (m +:+ "/" +:+ c)); [discriminate Hcall|].
    destruct (_load_class E m subname c initial_world).1;
      [discriminate Hcall|now injection Hcall as <- _]. }
  assert (Hc : cache_of cache w' = cache_of cache w).
  { destruct (cache_of cache w !! typestring); [discriminate Hcall|].
    destruct (_splittype typestring) as [[|m [|c [|? ?]]]|e0];
      try (injection Hcall as _ <-; now autorewrite with world).
    destruct (cache_of cache w !! (m +:+ "/" +:+ c)); [discriminate Hcall|].
    destruct (_load_class E m subname c initial_world).1;
      [discriminate Hcall|].
    injection Hcall as _ <-. now autorewrite with world. }
  split; [exact Hc|now apply Hagain].
Qed.

End RegistryFrame.

Lemma get_class_raise_caches_nothing_witness :
  exists e w',
    _get_class Demo.env "nopkg/Thing" "msg" Loaded_msgs Msgs_lock initial_world
    = (Raise e, w')
    /\ cache_of Loaded_msgs w' = cache_of Loaded_msgs initial_world
    /\ (_get_class Demo.env "nopkg/Thing" "msg" Loaded_msgs Msgs_lock w').1 = Raise e.
Proof.
  eexists _, _. split; [vm_compute; reflexivity|].
  apply (get_class_raise_caches_nothing Demo.env "nopkg/Thing" "msg" Loaded_msgs
           Msgs_lock initial_world).
  vm_compute. reflexivity.
Defined.

(** ** The registry: strings with the same segments *)

(** X3.  On a sound message cache, two type strings that split into the same
    package and name resolve to the same thing: the same class, or the same
    exception of the load. *)
Theorem get_msg_class_same_segments E typestring typestring' modname classname w :
  splits typestring = [modname; classname] ->
  splits typestring' = [modname; classname] ->
  cache_sound E w ->
  (_get_msg_class E typestring w).1 = (_get_msg_class E typestring' w).1.
Proof.
  intros Hs Hs' Hw.
  destruct (_get_msg_class_sound E typestring w Hw) as (w1 & -> & _).
  destruct (_get_msg_class_sound E typestring' w Hw) as (w2 & -> & _).
  cbn [fst]. rewrite !resolve_cold_unfold. unfold _splittype.
  now rewrite Hs, Hs'.
Qed.

Lemma get_msg_class_same_segments_witness :
  (_get_msg_class Demo.env "/std_msgs//Header/" initial_world).1
  = (_get_msg_class Demo.env "std_msgs/Header" initial_world).1.
Proof.
  apply (get_msg_class_same_segments Demo.env "/std_msgs//Header/"
           "std_msgs/Header" "std_msgs" "Header" initial_world
           eq_refl eq_refl (cache_sound_initial Demo.env)).
Defined.

(** X4.  What [_splittype] returns is a package and a name, both non-empty
    and free of [/]; joined by [/] they make a string that [_splittype] takes
    back to the same pair: the normalised form is its own normal form. *)
Theorem splittype_normal_form typestring l :
  _splittype typestring = Return l ->
  exists modname classname,
    l = [modname; classname]
    /\ nonempty modname = true /\ nonempty classname = true
    /\ has_char "/" modname = false /\ has_char "/" classname = false
    /\ _splittype (modname +:+ "/" +:+ classname) = Return [modname; classname].
Proof.
  intros H. destruct (_splittype_Return _ _ H) as (m & c & -> & Hmc).
  exists m, c. split; [reflexivity|].
  destruct (splits_elem typestring m) as [Hm Hm']; [rewrite Hmc; left|].
  destruct (splits_elem typestring c) as [Hc Hc']; [rewrite Hmc; right; left|].
  repeat split; try assumption.
  unfold _splittype. now rewrite (splits_normalised _ _ _ Hmc).
Qed.

Lemma splittype_normal_form_witness :
  exists modname classname,
    [ "pkg"; "Type" ] = [modname; classname]
    /\ nonempty modname = true /\ nonempty classname = true
    /\ has_char "/" modname = false /\ has_char "/" classname = false
    /\ _splittype (modname +:+ "/" +:+ classname) = Return [modname; classname].
Proof.
  apply (splittype_normal_form "/pkg//Type/" ["pkg"; "Type"] eq_refl).
Defined.

(** X5.  A type string without a [/], the empty one included, is refused by
    [_splittype] with [InvalidTypeStringException] carrying the string. *)
Theorem splittype_one_segment typestring :
  has_char "/" typestring = false ->
  _splittype typestring = Raise (InvalidTypeStringException typestring).
Proof.
  intros H. unfold _splittype, splits. rewrite (str_split_whole _ _ H).
  rewrite filter_cons, filter_nil.
  now destruct (decide (Is_true (nonempty typestring))).
Qed.

Lemma splittype_one_segment_witness :
  _splittype "onlyonesegment" = Raise (InvalidTypeStringException "onlyonesegment").
Proof. apply (splittype_one_segment "onlyonesegment" eq_refl). Defined.

(** ** The cache: insert and look up *)

(** X6.  After [_add_to_cache] of a key, [_get_from_cache] finds the value
    under that key and, under any other key, what the cache held before;
    both leave the lock free and everything but this cache as it was. *)
Theorem add_then_get_from_cache cache lock key value key' w :
  let w1 := (_add_to_cache cache lock key value w).2 in
  let '(found, w2) := _get_from_cache cache lock key' w1 in
  found = Return (if decide (key = key') then Some value
                  else cache_of cache w !! key')
  /\ lock_held lock w1 = false
  /\ w2 = w1
  /\ load_calls w1 = load_calls w /\ clock_reads w1 = clock_reads w.
Proof.
  cbv zeta. unfold _add_to_cache, _get_from_cache, acquire, release, modify, get.
  rewrite !M_bind_run. cbn [fst snd mret M_ret].
  rewrite cache_of_lock_set, cache_of_lock_set, cache_of_setitem, cache_of_lock_set.
  rewrite lookup_insert.
  split; [reflexivity|]. split; [apply lock_held_lock_set|].
  split; [apply relock_relock|].
  now destruct w, cache, lock.
Qed.

(** ** Array annotations *)

Lemma has_char_app c a b : has_char c (a +:+ b) = has_char c a || has_char c b.
Proof.
  induction a as [|x a IH]; [reflexivity|].
  change (String x a +:+ b) with (String x (a +:+ b)). cbn [has_char].
  now rewrite IH, orb_assoc.
Qed.

Lemma has_pair_no_close s : has_char "]" s = false -> has_pair s = false.
Proof.
  induction s as [|c s IH]; [reflexivity|]. cbn [has_char has_pair].
  intros [Hc Hs]%orb_false_iff. rewrite Hs, andb_false_r. now apply IH.
Qed.

(** What is left after the substitution holds no [[] with a []] after it. *)
Lemma braces_scan_no_pair s : forall held,
  (forall h, held = Some h -> has_char "]" h = false) ->
  has_pair (braces_scan held s) = false.
Proof.
  induction s as [|c s IH]; intros held Hheld.
  - destruct held as [h|]; [|reflexivity]. cbn. apply has_pair_no_close. auto.
  - cbn [braces_scan]. destruct held as [h|].
    + destruct (Ascii.eqb c "]") eqn:Hc.
      * apply IH. discriminate.
      * apply IH. intros h' [= <-]. rewrite has_char_app. cbn [has_char].
        rewrite (Hheld h eq_refl), Hc. reflexivity.
    + destruct (Ascii.eqb c "[") eqn:Hc.
      * apply IH. now intros h' [= <-].
      * cbn [has_pair]. rewrite Hc. cbn. apply IH. discriminate.
Qed.

(** X7.  The element type that [list_braces.sub] leaves holds no bracket
    pair, so it is never one of the binary array types: the elements of a
    sequence are never taken for byte arrays. *)
Theorem list_braces_sub_never_binary s :
  has_pair (list_braces_sub s) = false
  /\ py_in (list_braces_sub s) ros_binary_types = false.
Proof.
  assert (H : has_pair (list_braces_sub s) = false)
    by (apply braces_scan_no_pair; discriminate).
  split; [exact H|].
  unfold py_in. apply bool_decide_eq_false. intros Hin.
  unfold ros_binary_types in Hin.
  repeat (apply elem_of_cons in Hin as [Heq|Hin];
          [rewrite Heq in H; discriminate H|]).
  now apply elem_of_nil in Hin.
Qed.

Lemma braces_scan_held_close n : forall h rest,
  has_char "]" n = false ->
  braces_scan (Some h) (n +:+ String "]" rest) = braces_scan None rest.
Proof.
  induction n as [|c n IH]; intros h rest Hn.
  - reflexivity.
  - cbn [has_char] in Hn. apply orb_false_iff in Hn as [Hc Hn].
    change (String c n +:+ String "]" rest) with (String c (n +:+ String "]" rest)).
    cbn [braces_scan]. rewrite Hc. now apply IH.
Qed.

(** X8.  A type name without brackets followed by one array annotation, [[]]
    or [[n]], is taken back to the name; a name without a [[] is left as it
    is. *)
Theorem list_braces_sub_annotation base n :
  has_char "[" base = false ->
  has_char "]" n = false ->
  list_braces_sub (base +:+ "[" +:+ n +:+ "]") = base
  /\ list_braces_sub base = base.
Proof.
  intros Hbase Hn. unfold list_braces_sub.
  induction base as [|c base IH].
  - split; [|reflexivity].
    change (EmptyString +:+ "[" +:+ n +:+ "]") with (String "[" (n +:+ String "]" EmptyString)).
    cbn [braces_scan]. cbn [Ascii.eqb Bool.eqb].
    now rewrite braces_scan_held_close.
  - cbn [has_char] in Hbase. apply orb_false_iff in Hbase as [Hc Hbase].
    destruct (IH Hbase) as [IH1 IH2].
    change (String c base +:+ "[" +:+ n +:+ "]")
      with (String c (base +:+ "[" +:+ n +:+ "]")).
    cbn [braces_scan]. rewrite Hc. now rewrite IH1, IH2.
Qed.

Lemma list_braces_sub_annotation_witness :
  list_braces_sub ("float32" +:+ "[" +:+ "16" +:+ "]") = "float32"
  /\ list_braces_sub "float32" = "float32".
Proof. apply (list_braces_sub_annotation "float32" "16" eq_refl eq_refl). Defined.

(** ** Times and durations *)

(** X9.  Into a time or duration object, [_to_time_inst] never raises and
    never reads the clock, short of the literal ["now"] for a [time]: from a
    mapping it copies [secs] and [nsecs], each when present, and keeps the
    object's own value otherwise; any other value, of whatever kind, leaves
    the object as it is.  The object is changed in place and returned. *)
Theorem to_time_inst_lenient E msg rostype c a b w :
  c = Time_info \/ c = Duration_info ->
  String.eqb rostype "time" && is_str "now" msg = false ->
  let pick field old :=
    match msg with
    | PyDict sd => default old (assoc field sd)
    | _ => old
    end in
  let inst' := PyInst c [("secs", pick "secs" a); ("nsecs", pick "nsecs" b)] in
  _to_time_inst E msg rostype (PyInst c [("secs", a); ("nsecs", b)]) w
  = (Return inst', (inst', w)).
Proof.
  intros Hc Hnow. cbv zeta. unfold _to_time_inst. rewrite Hnow.
  cbn [is_none].
  unfold _to_time_field, try_except, lift, assign. rewrite !M_bind_run.
  destruct msg as [| | | |s| |l|l|sd|]; cbn [py_contains].
  1-4, 6, 10: destruct Hc as [-> | ->]; reflexivity.
  - destruct (is_substring "secs" s), (is_substring "nsecs" s);
      destruct Hc as [-> | ->]; reflexivity.
  - destruct (existsb (is_str "secs") l), (existsb (is_str "nsecs") l);
      destruct Hc as [-> | ->]; reflexivity.
  - destruct (existsb (is_str "secs") l), (existsb (is_str "nsecs") l);
      destruct Hc as [-> | ->]; reflexivity.
  - cbn [py_getitem].
    destruct (assoc "secs" sd) as [s|], (assoc "nsecs" sd) as [n|];
      destruct Hc as [-> | ->]; reflexivity.
Qed.

Lemma to_time_inst_lenient_witness :
  _to_time_inst Demo.env (PyDict [("nsecs", PyInt 9)]) "duration"
    (Duration (PyInt 1) (PyInt 2)) initial_world
  = (Return (Duration (PyInt 1) (PyInt 9)),
     (Duration (PyInt 1) (PyInt 9), initial_world))
  /\ _to_time_inst Demo.env (PyList [PyStr "secs"]) "time"
       (Time (PyInt 1) (PyInt 2)) initial_world
     = (Return (Time (PyInt 1) (PyInt 2)), (Time (PyInt 1) (PyInt 2), initial_world)).
Proof.
  split.
  - apply (to_time_inst_lenient Demo.env (PyDict [("nsecs", PyInt 9)]) "duration"
             Duration_info (PyInt 1) (PyInt 2) initial_world
             (or_intror eq_refl) eq_refl).
  - apply (to_time_inst_lenient Demo.env (PyList [PyStr "secs"]) "time"
             Time_info (PyInt 1) (PyInt 2) initial_world
             (or_introl eq_refl) eq_refl).
Defined.

(** X10.  The literal ["now"] for a [time] reads the clock once and returns
    a new time holding what it read; the object passed as [inst], if any, is
    not touched.  For a [duration] the literal is nothing special: no clock
    is read, and without an object the result is a zero duration. *)
Theorem to_time_inst_now E inst w :
  _to_time_inst E (PyStr "now") "time" inst w
  = (Return (Time (PyInt (rostime E (clock_reads w)).1)
                  (PyInt (rostime E (clock_reads w)).2)),
     (inst, tick w))
  /\ _to_time_inst E (PyStr "now") "duration" PyNone w
     = (Return (Duration (PyInt 0) (PyInt 0)), (PyNone, w)).
Proof.
  split; [|reflexivity].
  unfold _to_time_inst, get_rostime.
  change (String.eqb "time" "time" && is_str "now" (PyStr "now")) with true.
  cbv iota. now destruct (rostime E (clock_reads w)).
Qed.

(** ** Primitive fields *)

(** X11.  What [_to_primitive_inst] returns is its input, when that is a
    boolean, an integer or a float of a kind [type_map] admits for the schema
    type, or else the ASCII bytes of an input text for a [string]: never a
    value of another kind.  What it raises is [FieldTypeMismatchException]
    with the root type, the path, the schema type and the name of the type of
    the input; for a byte string only, it is the [KeyError] of the lookup in
    [type_map]. *)
Theorem to_primitive_inst_outcomes msg rostype roottype stack :
  (forall v,
     _to_primitive_inst msg rostype roottype stack = Return v ->
     (v = msg /\ kind_ok rostype msg = true)
     \/ (exists s, msg = PyStr s /\ rostype = "string"
                   /\ v = PyBytes (encode_ascii_ignore s)))
  /\ (forall e,
        _to_primitive_inst msg rostype roottype stack = Raise e ->
        e = FieldTypeMismatchException roottype stack rostype (type_name msg)
        \/ (exists b, msg = PyBytes b /\ e = KeyError "bytes")).
Proof.
  unfold _to_primitive_inst, kind_ok, type_map_get.
  destruct msg as [|b|z|bits|s|b|l|l|items|c attrs];
    cbn [is_primitive_type is_string_type type_name assoc type_map
         String.eqb Ascii.eqb Bool.eqb mbind outcome_bind andb].
  1, 7-10: split; [discriminate|intros e [= <-]; now left].
  1-3: (match goal with |- context [py_in ?r ?l] =>
          destruct (py_in r l) eqn:Hin end;
        split; [intros v [= <-]; now left | discriminate
               | discriminate | intros e [= <-]; now left]).
  - destruct (py_in rostype ["string"]) eqn:Hin.
    + split; [|discriminate]. intros v [= <-]. right. exists s.
      split; [reflexivity|]. split; [|reflexivity].
      apply bool_decide_eq_true in Hin.
      now apply list_elem_of_singleton in Hin.
    + split; [discriminate|]. intros e [= <-]. now left.
  - split; [discriminate|]. intros e [= <-]. right. now exists b.
Qed.

(** ** What the registry raises *)

Section RegistryErrors.

Variable E : rosenv.

Lemma _load_class_Raise modname subname classname w e :
  (_load_class E modname subname classname w).1 = Raise e ->
  (exists exc, load_manifest E modname = Raise exc
               /\ (e = InvalidPackageException modname exc
                   \/ (exn_message exc = None /\ e = AttributeError "message")))
  \/ (exists exc, import_ E (modname +:+ "." +:+ subname) = Raise exc
                  /\ e = InvalidModuleException modname subname exc)
  \/ (exists cause, e = InvalidClassException modname subname classname cause).
Proof.
  unfold _load_class, modify, raise, lift. rewrite !M_bind_run. cbn [fst snd].
  destruct (load_manifest E modname) as [[]|exc].
  - destruct (import_ E (modname +:+ "." +:+ subname)) as [pypkg|exc] eqn:Himp.
    + destruct (pypkg !! subname) as [submodule|];
        [|intros [= <-]; right; right; eauto].
      destruct (submodule !! classname);
        [discriminate|intros [= <-]; right; right; eauto].
    + intros [= <-]. right. left. eauto.
  - intros H. left. exists exc. split; [reflexivity|]. revert H.
    rewrite M_bind_run. unfold InvalidPackageException_new.
    destruct (exn_message exc); cbn; intros [= <-]; auto.
Qed.


End RegistryErrors.


(** ** Where a conversion error points *)

Section ErrorPaths.

Variable E : rosenv.

Lemma blames_weaken roottype stack k e :
  blames roottype (stack ++ [k]) e -> blames roottype stack e.
Proof.
  assert (Hp : stack `prefix_of` stack ++ [k]) by now apply prefix_app_r.
  destruct e; cbn; try tauto.
  - intros (-> & Hpre & _). split; [reflexivity|].
    split; [now transitivity (stack ++ [k])|].
    intros ->. apply prefix_length in Hpre. rewrite length_app in Hpre.
    cbn in Hpre. lia.
  - intros (-> & Hpre). split; [reflexivity|]. now transitivity (stack ++ [k]).
Qed.

Lemma setattr_Raise inst name v e :
  setattr inst name v = Raise e -> e = AttributeError name.
Proof.
  destruct inst; cbn; try (now intros [= <-]).
  destruct (py_in name (__slots__ c)); [discriminate|now intros [= <-]].
Qed.

Lemma getattr_Raise inst name e :
  getattr inst name = Raise e -> e = AttributeError name.
Proof.
  destruct inst; cbn; try (now intros [= <-]).
  destruct (assoc name attrs); [discriminate|now intros [= <-]].
Qed.

Lemma inst_fields_of_Raise inst e :
  inst_fields_of inst = Raise e -> exists name, e = AttributeError name.
Proof.
  destruct inst; cbn; try (intros [= <-]; eauto).
  unfold inst_fields_of. cbn. destruct (_slot_types c); cbn; [discriminate|].
  intros [= <-]. eauto.
Qed.

Lemma _to_binary_inst_Return msg : exists v, _to_binary_inst E msg = Return v.
Proof.
  unfold _to_binary_inst. destruct (is_string_type msg).
  - destruct (standard_b64decode msg); eauto.
  - destruct (bytearray E msg ≫= repr_bytearray E); eauto.
Qed.

Lemma _to_time_field_Raise msg field obj e obj' :
  _to_time_field msg field obj = (Raise e, obj') -> e = AttributeError field.
Proof.
  unfold _to_time_field, try_except, lift, assign. rewrite M_bind_run.
  destruct (py_contains field msg) as [[]|e0] eqn:Hin.
  - rewrite M_bind_run.
    destruct (py_getitem msg field) as [v|e1] eqn:Hget.
    + destruct (setattr obj field v) as [obj1|e2] eqn:Hset; [discriminate|].
      apply setattr_Raise in Hset as ->.
      cbn. now intros [= <- _].
    + destruct msg; cbn in Hin, Hget; try discriminate;
        try (injection Hget as <-; discriminate).
      destruct (assoc field items); discriminate.
  - discriminate.
  - destruct msg; cbn in Hin; try discriminate; injection Hin as <-; discriminate.
Qed.

Lemma _to_time_inst_Raise msg rostype inst w e :
  (_to_time_inst E msg rostype inst w).1 = Raise e ->
  exists name, e = AttributeError name.
Proof.
  unfold _to_time_inst.
  assert (Hfill : forall obj,
             match (_to_time_field msg "secs";; _to_time_field msg "nsecs") obj with
             | (Raise e0, _) => exists name, e0 = AttributeError name
             | _ => True
             end).
  { intros obj. rewrite M_bind_run.
    destruct (_to_time_field msg "secs" obj) as [[[]|e1] obj1] eqn:H1.
    - destruct (_to_time_field msg "nsecs" obj1) as [[[]|e2] obj2] eqn:H2;
        [exact I|].
      apply _to_time_field_Raise in H2. eauto.
    - apply _to_time_field_Raise in H1. eauto. }
  destruct (String.eqb rostype "time" && is_str "now" msg).
  - unfold get_rostime. now destruct (rostime E (clock_reads w)).
  - destruct (is_none inst).
    + destruct (String.eqb rostype "time").
      { specialize (Hfill (Time (PyInt 0) (PyInt 0))).
        destruct ((_to_time_field msg "secs";; _to_time_field msg "nsecs") _)
          as [[[]|e1] obj1]; cbn; [discriminate|]. now intros [= <-]. }
      destruct (String.eqb rostype "duration"); [|discriminate].
      specialize (Hfill (Duration (PyInt 0) (PyInt 0))).
      destruct ((_to_time_field msg "secs";; _to_time_field msg "nsecs") _)
        as [[[]|e1] obj1]; cbn; [discriminate|]. now intros [= <-].
    + specialize (Hfill inst).
      destruct ((_to_time_field msg "secs";; _to_time_field msg "nsecs") inst)
        as [[[]|e1] obj1]; cbn; [discriminate|]. now intros [= <-].
Qed.

Lemma _to_primitive_inst_blames msg rostype roottype stack e :
  _to_primitive_inst msg rostype roottype stack = Raise e -> blames roottype stack e.
Proof.
  unfold _to_primitive_inst, type_map_get.
  destruct msg;
    cbn [is_primitive_type is_string_type type_name assoc type_map
         String.eqb Ascii.eqb Bool.eqb mbind outcome_bind andb];
    try (intros [= <-]; now cbn);
    (match goal with |- context [py_in ?r ?l] => destruct (py_in r l) end;
     [discriminate|intros [= <-]; now cbn]).
Qed.

Lemma _get_msg_class_blames typestring w roottype stack e :
  (_get_msg_class E typestring w).1 = Raise e -> blames roottype stack e.
Proof.
  unfold _get_msg_class. rewrite _get_class_unfold. cbv zeta.
  destruct (cache_of Loaded_msgs w !! typestring); [discriminate|].
  unfold _splittype.
  destruct (Nat.eqb (length (splits typestring)) 2); [|now intros [= <-]].
  destruct (splits typestring) as [|m [|c [|? ?]]]; try (now intros [= <-]).
  destruct (cache_of Loaded_msgs w !! (m +:+ "/" +:+ c)); [discriminate|].
  destruct (_load_class E m "msg" c initial_world).1 as [cls|e0] eqn:Hload;
    [discriminate|].
  intros [= <-].
  apply _load_class_Raise in Hload
    as [(exc & _ & [-> | [_ ->]]) | [(exc & _ & ->) | (cause & ->)]]; exact I.
Qed.

Local Abbreviation blamed := (fun msg : pyval =>
  forall rostype roottype inst stack w e,
    (_to_inst E msg rostype roottype inst stack w).1 = Raise e ->
    blames roottype stack e).

Lemma _to_list_elems_blamed rostype roottype stack l :
  Forall blamed l ->
  forall w e,
    (mapM (_to_list_elem (_to_inst E) rostype roottype stack) l w).1 = Raise e ->
    blames roottype stack e.
Proof.
  induction 1 as [|x l Hx Hl IH]; intros w e; [discriminate|].
  rewrite mapM_world_cons. unfold _to_list_elem at 1.
  specialize (Hx rostype roottype PyNone stack w).
  destruct (_to_inst E x rostype roottype PyNone stack w) as [[y|e1] [seed w1]].
  - specialize (IH w1).
    destruct (mapM (_to_list_elem (_to_inst E) rostype roottype stack) l w1)
      as [[k|e2] w2]; [discriminate|].
    intros [= <-]. now apply IH.
  - intros [= <-]. now apply Hx.
Qed.

Lemma _to_list_inst_blamed msg rostype roottype inst stack w e :
  match msg with PyList l | PyTuple l => Forall blamed l | _ => True end ->
  (_to_list_inst E msg rostype roottype inst stack w).1 = Raise e ->
  blames roottype stack e.
Proof.
  intros Hall. unfold _to_list_inst, _to_list_inst_with.
  destruct msg as [| | | | | |l|l| |];
    try (intros [= <-]; cbn; split; reflexivity);
    (destruct (Nat.eqb (length l) 0); [discriminate|];
     rewrite M_bind_run;
     pose proof (_to_list_elems_blamed (list_braces_sub rostype) roottype stack l
                   Hall w) as Hl;
     destruct (mapM (_to_list_elem (_to_inst E) (list_braces_sub rostype)
                       roottype stack) l w) as [[k|e1] w1];
     [discriminate|intros [= <-]; now apply Hl]).
Qed.

Lemma _to_object_fields_blamed inst_fields roottype stack items :
  Forall (fun kv => blamed kv.2) items ->
  forall inst w e,
    (_to_object_fields (_to_inst E) inst_fields roottype stack items (inst, w)).1
    = Raise e ->
    blames roottype stack e.
Proof.
  induction 1 as [|[k v] items Hv Hitems IH]; intros inst w e; [discriminate|].
  cbn [_to_object_fields]. rewrite M_bind_run.
  assert (Hstep : forall e1,
             (_to_object_field (_to_inst E) inst_fields roottype stack k v
                (inst, w)).1 = Raise e1 -> blames roottype stack e1).
  { intros e1. unfold _to_object_field.
    destruct (inst_fields !! k) as [ty|].
    - destruct (getattr inst k) as [field_inst|e2] eqn:Hget.
      + specialize (Hv ty roottype field_inst (stack ++ [k]) w). cbn [snd] in Hv.
        destruct (_to_inst E v ty roottype field_inst (stack ++ [k]) w)
          as [[fv|e3] [fi' w1]].
        * destruct (setattr _ k fv) as [inst2|e4] eqn:Hset; [discriminate|].
          apply setattr_Raise in Hset as ->. now intros [= <-].
        * intros [= <-]. apply (blames_weaken _ _ k). now apply Hv.
      + apply getattr_Raise in Hget as ->. now intros [= <-].
    - intros [= <-]. cbn. split; [reflexivity|].
      split; [now apply prefix_app_r|].
      intros Heq. apply (f_equal length) in Heq. rewrite length_app in Heq.
      cbn in Heq. lia. }
  destruct (_to_object_field _ _ _ _ k v (inst, w)) as [[[]|e1] [inst1 w1]].
  - apply IH.
  - intros [= <-]. now apply Hstep.
Qed.

Lemma _to_object_inst_blamed msg rostype roottype inst stack w e :
  match msg with PyDict items => Forall (fun kv => blamed kv.2) items | _ => True end ->
  (_to_object_inst E msg rostype roottype inst stack w).1 = Raise e ->
  blames roottype stack e.
Proof.
  intros Hall.
  destruct msg as [| | | | | | | |items|];
    try (intros [= <-]; cbn; split; reflexivity).
  rewrite _to_object_inst_unfold.
  destruct ((if py_in rostype ros_header_types then stamp_header E else mret tt)
              (inst, w)) as [[[]|e0] [inst0 w0]] eqn:Hstamp.
  - destruct (inst_fields_of inst0) as [inst_fields|e1] eqn:Hfields.
    + pose proof (_to_object_fields_blamed inst_fields roottype stack items Hall
                    inst0 w0) as Hwalk.
      destruct (_to_object_fields _ _ _ _ items _) as [[[]|e2] [inst1 w1]];
        [discriminate|].
      intros [= <-]. now apply Hwalk.
    + apply inst_fields_of_Raise in Hfields as [name ->]. now intros [= <-].
  - intros [= <-].
    destruct (py_in rostype ros_header_types); [|discriminate Hstamp].
    revert Hstamp. unfold stamp_header, get_rostime.
    destruct (rostime E (clock_reads w)). cbn.
    destruct (setattr inst "stamp" _) as [inst2|e4] eqn:Hset; [discriminate|].
    apply setattr_Raise in Hset as ->. now intros [= <- _ _].
Qed.

(** X13.  Whatever the value, the type and the target: when [_to_inst] raises
    [FieldTypeMismatchException] or [NonexistentFieldException], from however
    deep in the value, the exception carries the root type of the call and a
    path that starts with the path of the call; the path of a
    [NonexistentFieldException] is longer, by the missing key at least. *)
Theorem to_inst_error_path msg rostype roottype inst stack w e :
  (_to_inst E msg rostype roottype inst stack w).1 = Raise e ->
  match e with
  | NonexistentFieldException basetype fields =>
      basetype = roottype /\ stack `prefix_of` fields /\ fields <> stack
  | FieldTypeMismatchException root fields _ _ =>
      root = roottype /\ stack `prefix_of` fields
  | _ => True
  end.
Proof.
  revert rostype roottype inst stack w e. change (blamed msg).
  assert (Hstep : forall msg,
             match msg with
             | PyList l | PyTuple l => Forall blamed l
             | PyDict items => Forall (fun kv => blamed kv.2) items
             | _ => True
             end -> blamed msg).
  { clear msg. intros msg Hall rostype roottype inst stack w e.
    rewrite _to_inst_unfold.
    destruct (py_in rostype ros_binary_types).
    { destruct (_to_binary_inst_Return msg) as [v ->]. discriminate. }
    destruct (py_in rostype ros_time_types).
    { intros H. apply _to_time_inst_Raise in H as [name ->]. exact I. }
    destruct (py_in rostype ros_primitive_types).
    { apply _to_primitive_inst_blames. }
    destruct (negb (is_none inst) && is_list_type inst).
    - pose proof (_to_list_inst_blamed msg rostype roottype inst stack w e) as Hl.
      destruct (_to_list_inst E msg rostype roottype inst stack w) as [r w1].
      apply Hl. now destruct msg.
    - assert (Hobj : forall inst' w',
                 (_to_object_inst E msg rostype roottype inst' stack w').1 = Raise e ->
                 blames roottype stack e).
      { intros inst' w'. apply _to_object_inst_blamed. now destruct msg. }
      destruct (is_none inst); [|now apply Hobj].
      pose proof (_get_msg_class_blames rostype w roottype stack) as Hget.
      destruct (_get_msg_class E rostype w) as [[cls|e0] w1].
      + specialize (Hobj (new cls) w1).
        now destruct (_to_object_inst E msg rostype roottype (new cls) stack w1)
          as [r [i w2]].
      + intros [= <-]. now apply Hget. }
  induction msg using pyval_nested_ind; apply Hstep; auto.
Qed.

End ErrorPaths.

Lemma to_inst_error_path_witness :
  (_to_inst Demo.env (PyDict [("header", PyDict [("foo", PyInt 1)])])
     "demo_msgs/Reading" "demo_msgs/Reading" (new Demo.Reading) ["outer"]
     initial_world).1
  = Raise (NonexistentFieldException "demo_msgs/Reading" ["outer"; "header"; "foo"])
  /\ "demo_msgs/Reading" = "demo_msgs/Reading"
  /\ ["outer"] `prefix_of` ["outer"; "header"; "foo"]
  /\ ["outer"; "header"; "foo"] <> ["outer"].
Proof.
  split; [vm_compute; reflexivity|].
  apply (to_inst_error_path Demo.env (PyDict [("header", PyDict [("foo", PyInt 1)])])
           "demo_msgs/Reading" "demo_msgs/Reading" (new Demo.Reading) ["outer"]
           initial_world
           (NonexistentFieldException "demo_msgs/Reading" ["outer"; "header"; "foo"])).
  vm_compute. reflexivity.
Defined.

(** ** What a call leaves of its target *)

Section PartialUpdate.

Variable E : rosenv.

Lemma _to_object_field_inst to_inst inst_fields roottype stack k v c attrs w :
  exists attrs',
    (_to_object_field to_inst inst_fields roottype stack k v (PyInst c attrs, w)).2.1
    = PyInst c attrs'
    /\ forall name, name <> k -> assoc name attrs' = assoc name attrs.
Proof.
  unfold _to_object_field.
  destruct (inst_fields !! k) as [ty|]; [|now exists attrs].
  destruct (getattr (PyInst c attrs) k) as [field_inst|e]; [|now exists attrs].
  destruct (to_inst v ty roottype field_inst (stack ++ [k]) w) as [[fv|e] [fi' w1]].
  - cbn [store setattr]. destruct (py_in k (__slots__ c)); eexists;
      (split; [reflexivity|]); intros name Hne;
      now rewrite ?assoc_assoc_set_ne by congruence.
  - eexists. split; [reflexivity|]. intros name Hne.
    now rewrite assoc_assoc_set_ne by congruence.
Qed.

Lemma _to_object_fields_inst to_inst inst_fields roottype stack items :
  forall c attrs w,
  exists attrs',
    (_to_object_fields to_inst inst_fields roottype stack items (PyInst c attrs, w)).2.1
    = PyInst c attrs'
    /\ forall name, assoc name items = None -> assoc name attrs' = assoc name attrs.
Proof.
  induction items as [|[k v] items IH]; intros c attrs w; [now exists attrs|].
  cbn [_to_object_fields]. rewrite M_bind_run.
  destruct (_to_object_field_inst to_inst inst_fields roottype stack k v c attrs w)
    as (attrs1 & H1 & Hf1).
  destruct (_to_object_field to_inst inst_fields roottype stack k v (PyInst c attrs, w))
    as [r1 [inst1 w1]]. cbn in H1. subst inst1.
  assert (Hname : forall name, assoc name ((k, v) :: items) = None ->
                               name <> k /\ assoc name items = None).
  { intros name. cbn. destruct (String.eqb_spec name k); [discriminate|auto]. }
  destruct r1 as [[]|e].
  - destruct (IH c attrs1 w1) as (attrs2 & H2 & Hf2).
    exists attrs2. split; [exact H2|].
    intros name Hn. apply Hname in Hn as [Hne Hn]. rewrite Hf2 by exact Hn. auto.
  - exists attrs1. split; [reflexivity|].
    intros name Hn. apply Hname in Hn as [Hne Hn]. auto.
Qed.

Lemma _to_time_field_inst msg field c attrs :
  exists attrs',
    (_to_time_field msg field (PyInst c attrs)).2 = PyInst c attrs'
    /\ (forall items name,
          msg = PyDict items -> assoc name items = None ->
          assoc name attrs' = assoc name attrs)
    /\ ((forall items, msg <> PyDict items) -> attrs' = attrs).
Proof.
  unfold _to_time_field, try_except, lift, assign. rewrite M_bind_run.
  destruct msg as [| | | |s| |l|l|items|]; cbn [py_contains];
    try (exists attrs; now repeat split).
  - exists attrs. destruct (is_substring field s); now repeat split.
  - exists attrs. destruct (existsb (is_str field) l); now repeat split.
  - exists attrs. destruct (existsb (is_str field) l); now repeat split.
  - assert (Hnot : ~ forall items0, PyDict items <> PyDict items0).
    { intros H. now destruct (H items). }
    cbn [py_getitem]. destruct (assoc field items) as [v|] eqn:Hfield.
    + unfold mbind, M_bind.
      change (bool_decide (is_Some (Some v))) with true. cbv beta iota.
      destruct (setattr (PyInst c attrs) field v) as [inst'|e] eqn:Hset; cbn.
      * apply setattr_Return in Hset as ->. cbn [store]. eexists. split; [reflexivity|]. split; [|intros H; now destruct Hnot].
        intros items0 name [= <-] Hn. apply assoc_assoc_set_ne. congruence.
      * exists attrs. split; [now destruct (is_TypeError e)|].
        split; [auto|reflexivity].
    + exists attrs. split; [reflexivity|]. split; [auto|reflexivity].
Qed.

Lemma _to_time_inst_inst msg rostype c attrs w :
  exists attrs',
    (_to_time_inst E msg rostype (PyInst c attrs) w).2.1 = PyInst c attrs'
    /\ (forall items name,
          msg = PyDict items -> assoc name items = None ->
          assoc name attrs' = assoc name attrs)
    /\ ((forall items, msg <> PyDict items) -> attrs' = attrs).
Proof.
  unfold _to_time_inst.
  destruct (String.eqb rostype "time" && is_str "now" msg).
  - unfold get_rostime. destruct (rostime E (clock_reads w)).
    exists attrs. now repeat split.
  - cbn [is_none]. rewrite M_bind_run.
    destruct (_to_time_field_inst msg "secs" c attrs) as (attrs1 & H1 & Hd1 & Hn1).
    destruct (_to_time_field msg "secs" (PyInst c attrs)) as [r1 obj1].
    cbn in H1. subst obj1.
    destruct r1 as [[]|e]; [|exists attrs1; now repeat split].
    destruct (_to_time_field_inst msg "nsecs" c attrs1) as (attrs2 & H2 & Hd2 & Hn2).
    destruct (_to_time_field msg "nsecs" (PyInst c attrs1)) as [r2 obj2].
    cbn in H2. subst obj2.
    exists attrs2. split; [now destruct r2 as [[]|e]|]. split.
    + intros items name Hmsg Hname.
      rewrite (Hd2 items name Hmsg Hname). now apply (Hd1 items).
    + intros Hmsg. rewrite (Hn2 Hmsg). now apply Hn1.
Qed.

(** X14.  Whatever [_to_inst] returns or raises for a target that is an
    instance, the target is afterwards an instance of the same class.  For a
    mapping, every attribute the mapping does not name has the value it had,
    but for the [stamp] of a header type; for any other value, all attributes
    have. *)
Theorem to_inst_partial_update msg rostype roottype c attrs stack w :
  exists attrs',
    (_to_inst E msg rostype roottype (PyInst c attrs) stack w).2.1 = PyInst c attrs'
    /\ (forall items name,
          msg = PyDict items -> assoc name items = None ->
          (name = "stamp" -> py_in rostype ros_header_types = false) ->
          assoc name attrs' = assoc name attrs)
    /\ ((forall items, msg <> PyDict items) -> attrs' = attrs).
Proof.
  rewrite _to_inst_unfold.
  destruct (py_in rostype ros_binary_types); [exists attrs; now repeat split|].
  destruct (py_in rostype ros_time_types).
  { destruct (_to_time_inst_inst msg rostype c attrs w) as (attrs' & H & Hd & Hn).
    exists attrs'. split; [exact H|]. split; [|exact Hn].
    intros items name Hmsg Hname _. now apply (Hd items). }
  destruct (py_in rostype ros_primitive_types); [exists attrs; now repeat split|].
  cbn [is_none is_list_type negb andb].
  destruct msg as [| | | | | | | |items|];
    try (exists attrs; now repeat split).
  rewrite _to_object_inst_unfold.
  assert (Hstamp : exists attrs0,
             ((if py_in rostype ros_header_types then stamp_header E else mret tt)
                (PyInst c attrs, w)).2.1 = PyInst c attrs0
             /\ forall name,
                  (name = "stamp" -> py_in rostype ros_header_types = false) ->
                  assoc name attrs0 = assoc name attrs).
  { destruct (py_in rostype ros_header_types); [|now exists attrs].
    unfold stamp_header, get_rostime. destruct (rostime E (clock_reads w)). cbn.
    destruct (py_in "stamp" (__slots__ c)); [|now exists attrs].
    eexists. split; [reflexivity|]. intros name Hname.
    apply assoc_assoc_set_ne. intros Heq. symmetry in Heq.
    now specialize (Hname Heq). }
  destruct Hstamp as (attrs0 & H0 & Hf0).
  destruct ((if py_in rostype ros_header_types then stamp_header E else mret tt)
              (PyInst c attrs, w)) as [r0 [inst0 w0]]. cbn in H0. subst inst0.
  assert (Hnot : ~ forall items0, PyDict items <> PyDict items0).
  { intros H. now destruct (H items). }
  destruct r0 as [[]|e].
  2: { exists attrs0. split; [reflexivity|]. split; [|intros H; now destruct Hnot].
       intros items0 name _ _ Hname. now apply Hf0. }
  destruct (inst_fields_of (PyInst c attrs0)) as [inst_fields|e].
  2: { exists attrs0. split; [reflexivity|]. split; [|intros H; now destruct Hnot].
       intros items0 name _ _ Hname. now apply Hf0. }
  destruct (_to_object_fields_inst (_to_inst E) inst_fields roottype stack items
              c attrs0 w0) as (attrs1 & H1 & Hf1).
  destruct (_to_object_fields (_to_inst E) inst_fields roottype stack items
              (PyInst c attrs0, w0)) as [r1 [inst1 w1]]. cbn in H1. subst inst1.
  exists attrs1. split; [now destruct r1 as [[]|e]|].
  split; [|intros H; now destruct Hnot].
  intros items0 name [= <-] Hn Hname. rewrite (Hf1 name Hn). now apply Hf0.
Qed.

End PartialUpdate.

(** ** Sequences *)

Lemma mapM_to_list_elem_Return (to_inst : to_inst_t) rostype roottype stack l :
  forall w ys w',
    mapM (_to_list_elem to_inst rostype roottype stack) l w = (Return ys, w') ->
    Forall2 (fun x y => exists w1 seed w2,
                 to_inst x rostype roottype PyNone stack w1 = (Return y, (seed, w2)))
            l ys.
Proof.
  induction l as [|x l IH]; intros w ys w'.
  - intros [= <- _]. constructor.
  - rewrite mapM_world_cons. unfold _to_list_elem at 1.
    destruct (to_inst x rostype roottype PyNone stack w) as [[y|e] [seed w1]] eqn:Hx;
      [|discriminate].
    destruct (mapM (_to_list_elem to_inst rostype roottype stack) l w1)
      as [[k|e] w2] eqn:Hl; [|discriminate].
    intros [= <- _]. constructor; [eauto|]. now apply (IH w1 k w2).
Qed.

(** X15.  A field whose target holds a list or a tuple, of a type that is
    not binary, time or primitive, is deserialized as a sequence.  The target
    is never touched.  What is returned is a new list, as long as the value,
    of the elements deserialized one by one, without a target, at the type
    with its array annotations removed and under the path of the sequence
    itself; a tuple comes back as a list too.  A value that is no list or
    tuple raises [FieldTypeMismatchException] without another effect, and an
    empty one gives the empty list whatever the type. *)
Theorem to_inst_sequence E msg rostype roottype inst stack w :
  is_record_type rostype = true ->
  is_list_type inst = true ->
  let res := _to_inst E msg rostype roottype inst stack w in
  res.2.1 = inst
  /\ (forall v, res.1 = Return v ->
        exists l elems,
          (msg = PyList l \/ msg = PyTuple l)
          /\ v = PyList elems
          /\ length elems = length l
          /\ Forall2 (fun x y => exists w1 seed w2,
                        _to_inst E x (list_braces_sub rostype) roottype PyNone
                          stack w1 = (Return y, (seed, w2)))
                     l elems)
  /\ (is_list_type msg = false ->
      res = (Raise (FieldTypeMismatchException roottype stack rostype
                      (type_name msg)), (inst, w)))
  /\ (msg = PyList [] \/ msg = PyTuple [] ->
      res = (Return (PyList []), (inst, w))).
Proof.
  intros (Hb & Ht & Hp)%is_record_type_true Hinst. cbv zeta.
  rewrite _to_inst_unfold, Hb, Ht, Hp.
  assert (Hlist : negb (is_none inst) && is_list_type inst = true)
    by (now destruct inst).
  rewrite Hlist. unfold _to_list_inst, _to_list_inst_with.
  assert (Hseq : forall l,
             let res :=
               (let '(r, w') :=
                  (if Nat.eqb (length l) 0 then mret (PyList [])
                   else elems ← mapM (_to_list_elem (_to_inst E)
                                        (list_braces_sub rostype) roottype stack) l;
                        mret (PyList elems)) w in
                (r, (inst, w'))) in
             res.2.1 = inst
             /\ (forall v, res.1 = Return v ->
                   exists elems,
                     v = PyList elems
                     /\ length elems = length l
                     /\ Forall2 (fun x y => exists w1 seed w2,
                                   _to_inst E x (list_braces_sub rostype) roottype
                                     PyNone stack w1 = (Return y, (seed, w2)))
                                l elems)
             /\ (l = [] -> res = (Return (PyList []), (inst, w)))).
  { intros l. cbv zeta. destruct l as [|x l].
    - cbn. repeat split; auto. intros v [= <-]. exists []. repeat split; constructor.
    - cbn [length Nat.eqb]. rewrite M_bind_run.
      destruct (mapM (_to_list_elem (_to_inst E) (list_braces_sub rostype)
                        roottype stack) (x :: l) w) as [[elems|e] w1] eqn:Hl.
      + apply mapM_to_list_elem_Return in Hl.
        cbn. repeat split; [|discriminate].
        intros v [= <-]. exists elems. split; [reflexivity|].
        split; [|exact Hl]. symmetry. now apply Forall2_length in Hl.
      + cbn. repeat split; discriminate. }
  destruct msg as [| | | | | |l|l| |];
    try (cbn; repeat split; auto; try discriminate;
         intros [H|H]; discriminate H).
  - destruct (Hseq l) as (Hi & Hv & He). split; [exact Hi|]. split.
    + intros v Hr. destruct (Hv v Hr) as (elems & ? & ? & ?).
      exists l, elems. auto.
    + split; [discriminate|]. intros [[= ->]|[=]]. now apply He.
  - destruct (Hseq l) as (Hi & Hv & He). split; [exact Hi|]. split.
    + intros v Hr. destruct (Hv v Hr) as (elems & ? & ? & ?).
      exists l, elems. auto.
    + split; [discriminate|]. intros [[=]|[= ->]]. now apply He.
Qed.

Lemma to_inst_sequence_witness :
  _to_inst Demo.env (PyTuple [PyInt 1; PyInt 2]) "int32[]" "demo_msgs/Reading"
    (PyList [PyInt 7]) ["samples"] initial_world
  = (Return (PyList [PyInt 1; PyInt 2]), (PyList [PyInt 7], initial_world))
  /\ (_to_inst Demo.env (PyInt 1) "int32[]" "demo_msgs/Reading"
        (PyList [PyInt 7]) ["samples"] initial_world
      = (Raise (FieldTypeMismatchException "demo_msgs/Reading" ["samples"]
                  "int32[]" "int"), (PyList [PyInt 7], initial_world))).
Proof.
  split; [vm_compute; reflexivity|].
  apply (to_inst_sequence Demo.env (PyInt 1) "int32[]" "demo_msgs/Reading"
           (PyList [PyInt 7]) ["samples"] initial_world eq_refl eq_refl).
  reflexivity.
Defined.

(** ** The world after a conversion *)

(** X16.  Whatever [populate_instance] returns or raises, it leaves the
    registry of service classes and its lock as they were; a class that was
    cached for a key of the message registry is still cached for it; the lock
    of the message registry, when it was free, is free again; the clock has
    only moved forward, and the loads that were made have only been added
    to. *)
Theorem populate_instance_world E msg inst w :
  let w' := (populate_instance E msg inst w).2.2 in
  _loaded_srvs w' = _loaded_srvs w
  /\ _srvs_lock w' = _srvs_lock w
  /\ (forall key cls, _loaded_msgs w !! key = Some cls ->
                      _loaded_msgs w' !! key = Some cls)
  /\ (_msgs_lock w = false -> _msgs_lock w' = false)
  /\ clock_reads w <= clock_reads w'
  /\ load_calls w `prefix_of` load_calls w'.
Proof.
  cbv zeta.
  apply (populate_instance_keeps E (fun w' =>
           _loaded_srvs w' = _loaded_srvs w
           /\ _srvs_lock w' = _srvs_lock w
           /\ (forall key cls, _loaded_msgs w !! key = Some cls ->
                               _loaded_msgs w' !! key = Some cls)
           /\ (_msgs_lock w = false -> _msgs_lock w' = false)
           /\ clock_reads w <= clock_reads w'
           /\ load_calls w `prefix_of` load_calls w')).
  - intros w0 (Hs & Hl & Hm & Hk & Hc & Hp). cbn. repeat split; auto.
  - intros typestring w0 (Hs & Hl & Hm & Hk & Hc & Hp).
    unfold _get_msg_class. rewrite _get_class_unfold. cbv zeta.
    assert (Hsame : forall r : outcome pyclass,
               let w' := (r, lock_set Msgs_lock false
                               (lock_set Msgs_lock true w0)).2 in
               _loaded_srvs w' = _loaded_srvs w
               /\ _srvs_lock w' = _srvs_lock w
               /\ (forall key cls, _loaded_msgs w !! key = Some cls ->
                                   _loaded_msgs w' !! key = Some cls)
               /\ (_msgs_lock w = false -> _msgs_lock w' = false)
               /\ clock_reads w <= clock_reads w'
               /\ load_calls w `prefix_of` load_calls w').
    { intros r. cbn. repeat split; auto. }
    destruct (cache_of Loaded_msgs w0 !! typestring) eqn:Hhit; [apply Hsame|].
    destruct (_splittype typestring) as [[|m [|c [|? ?]]]|e]; try apply Hsame.
    destruct (cache_of Loaded_msgs w0 !! (m +:+ "/" +:+ c)) eqn:Hnorm;
      [apply Hsame|].
    cbn in Hhit, Hnorm.
    destruct (_load_class E m "msg" c initial_world).1 as [cls|e]; cbn.
    + repeat split; auto.
      * intros key cls' Hkey. specialize (Hm key cls' Hkey).
        rewrite !lookup_insert_ne by congruence. exact Hm.
      * now apply prefix_app_r.
    + repeat split; auto. now apply prefix_app_r.
  - repeat split; auto.
Qed.

(** ** The mapping a record is serialized to *)

Lemma assoc_set_new_key {A} k (v : A) l :
  assoc k l = None -> (assoc_set k v l).*1 = l.*1 ++ [k].
Proof.
  induction l as [|[k' v'] l IH]; cbn; [reflexivity|].
  destruct (String.eqb k k'); [discriminate|]. intros H. cbn. now rewrite IH.
Qed.

Lemma assoc_notin {A} k (l : list (string * A)) : k ∉ l.*1 -> assoc k l = None.
Proof.
  induction l as [|[k' v'] l IH]; cbn; [reflexivity|].
  intros [Hne Hn]%not_elem_of_cons.
  destruct (String.eqb_spec k k'); [congruence|auto].
Qed.

Lemma NoDup_fst_zip {A B} (l : list A) (k : list B) : NoDup l -> NoDup (zip l k).*1.
Proof.
  intros Hl. revert k. induction Hl as [|x l Hx Hl IH]; intros [|y k]; cbn;
    try constructor; [|apply IH].
  intros Hin. apply Hx. apply list_elem_of_fmap in Hin as ([x' y'] & -> & Hin).
  now apply elem_of_zip_l in Hin.
Qed.

Lemma _from_object_fields_Return from_attr fields :
  forall msg items,
    _from_object_fields from_attr fields msg = Return items ->
    (NoDup fields.*1 -> (forall k, k ∈ fields.*1 -> k ∉ msg.*1) ->
     items.*1 = msg.*1 ++ fields.*1)
    /\ forall name fv,
         assoc name items = Some fv ->
         assoc name msg = Some fv
         \/ exists t f, (name, t) ∈ fields /\ from_attr name = Some f
                        /\ f t = Return fv.
Proof.
  induction fields as [|[k t] fields IH]; intros msg items.
  - intros [= <-]. split; [intros _ _; now rewrite app_nil_r|auto].
  - cbn [_from_object_fields].
    destruct (from_attr k) as [f|] eqn:Hattr; [|discriminate].
    destruct (f t) as [v|e] eqn:Hv; [|discriminate].
    cbn [mbind outcome_bind]. unfold dict_setitem.
    intros Hrest. apply IH in Hrest as [Hkeys Hvals]. split.
    + cbn [fmap list_fmap fst]. intros [Hk Hnd]%NoDup_cons Hfresh.
      rewrite Hkeys; [| exact Hnd |].
      * rewrite assoc_set_new_key; [now rewrite <- app_assoc|].
        apply assoc_notin, Hfresh. now left.
      * intros k' Hk'.
        rewrite assoc_set_new_key by (apply assoc_notin, Hfresh; now left).
        intros [Hin|Hin%list_elem_of_singleton]%elem_of_app.
        -- apply (Hfresh k'); [now right|exact Hin].
        -- now subst k'.
    + intros name fv Hname. apply Hvals in Hname as [Hname|(t' & f' & Hin & Hf & Hr)].
      * destruct (String.eqb_spec k name) as [->|Hne].
        -- rewrite assoc_assoc_set_eq in Hname. injection Hname as <-.
           right. exists t, f. split; [now left|auto].
        -- rewrite assoc_assoc_set_ne in Hname by exact Hne. now left.
      * right. exists t', f'. split; [now right|auto].
Qed.

(** X17.  An instance serialized at a type that is not binary, time or
    primitive gives a mapping, whatever the type says: the keys are the slots
    of its class that have a type, in declared order when no slot is declared
    twice, and what a key holds is the serialization of the attribute of that
    name, at a type the class pairs with the slot. *)
Theorem from_inst_record c attrs rostype v :
  is_record_type rostype = true ->
  _from_inst (PyInst c attrs) rostype = Return v ->
  exists slot_types items,
    _slot_types c = Some slot_types
    /\ v = PyDict items
    /\ (NoDup (__slots__ c) -> items.*1 = (zip (__slots__ c) slot_types).*1)
    /\ forall name fv,
         assoc name items = Some fv ->
         exists t a, (name, t) ∈ zip (__slots__ c) slot_types
                     /\ assoc name attrs = Some a
                     /\ _from_inst a t = Return fv.
Proof.
  intros (Hb & Ht & Hp)%is_record_type_true.
  cbn [_from_inst]. rewrite Hb, Ht, Hp.
  unfold _from_object_inst_with. cbn [attr__slots__ attr__slot_types].
  destruct (_slot_types c) as [slot_types|]; [|discriminate].
  cbn [mbind outcome_bind].
  destruct (_from_object_fields _ (zip (__slots__ c) slot_types) [])
    as [items|e] eqn:Hfields; [|discriminate].
  intros [= <-]. exists slot_types, items.
  apply _from_object_fields_Return in Hfields as [Hkeys Hvals].
  split; [reflexivity|]. split; [reflexivity|]. split.
  - intros Hnd. rewrite Hkeys; [reflexivity|now apply NoDup_fst_zip|].
    intros k _. apply not_elem_of_nil.
  - intros name fv Hname.
    apply Hvals in Hname as [Hname|(t & f & Hin & Hf & Hr)]; [discriminate|].
    rewrite assoc_map in Hf.
    destruct (assoc name attrs) as [a|]; [|discriminate].
    injection Hf as <-. exists t, a. auto.
Qed.

Lemma from_inst_record_witness :
  exists items,
    _from_inst Demo.a_header "std_msgs/Header" = Return (PyDict items)
    /\ items.*1 = ["seq"; "stamp"; "frame_id"].
Proof.
  destruct (from_inst_record Demo.Header_info
              [("seq", PyInt 1); ("stamp", Time (PyInt 5) (PyInt 7));
               ("frame_id", PyStr "")]
              "std_msgs/Header"
              (PyDict [("seq", PyInt 1);
                       ("stamp", PyDict [("secs", PyInt 5); ("nsecs", PyInt 7)]);
                       ("frame_id", PyStr "")])
              eq_refl eq_refl)
    as (slot_types & items & Hty & Hv & Hkeys & _).
  exists items. split; [now rewrite <- Hv|].
  injection Hty as <-. apply Hkeys.
  apply (bool_decide_unpack _). vm_compute. exact I.
Defined.

(** ** The list a sequence is serialized to *)

Lemma primitive_not_binary rostype :
  py_in rostype ros_primitive_types = true -> py_in rostype ros_binary_types = false.
Proof.
  unfold py_in. intros H%bool_decide_eq_true. unfold ros_primitive_types in H.
  repeat (apply elem_of_cons in H as [->|H]; [reflexivity|]).
  now apply elem_of_nil in H.
Qed.

Lemma mapM_outcome_Return {A B} (f : A -> outcome B) l :
  forall ys, mapM f l = Return ys <-> Forall2 (fun x y => f x = Return y) l ys.
Proof.
  induction l as [|x l IH]; intros ys.
  - split; [intros [= <-]; constructor|]. intros H. now inversion H.
  - rewrite mapM_outcome_cons. split.
    + destruct (f x) as [y|e] eqn:Hx; [|discriminate].
      destruct (mapM f l) as [k|e]; [|discriminate].
      intros [= <-]. constructor; [exact Hx|]. now apply IH.
    + intros H. inversion H as [|x0 y l0 k Hx Hl]; subst.
      rewrite Hx. apply IH in Hl. now rewrite Hl.
Qed.

Lemma Forall2_Return_same {A} (f : A -> outcome A) l :
  (forall x, f x = Return x) ->
  forall ys, Forall2 (fun x y => f x = Return y) l ys <-> ys = l.
Proof.
  intros Hf. induction l as [|x l IH]; intros ys.
  - split; [intros H; now inversion H|intros ->; constructor].
  - split.
    + intros H. inversion H as [|x0 y l0 k Hx Hl]; subst.
      rewrite Hf in Hx. injection Hx as <-. f_equal. now apply IH.
    + intros ->. constructor; [apply Hf|]. now apply IH.
Qed.

(** X18.  [_from_list_inst] returns lists only, and it returns the list
    [elems] exactly when [elems] lists, in order, what [_from_inst] returns
    for the elements at the type with its array annotations removed.  The two
    shortcuts, for an empty sequence and for elements of a primitive type,
    give what the conversion of each element would. *)
Theorem from_list_inst_elementwise l rostype :
  (forall v, _from_list_inst l rostype = Return v -> exists elems, v = PyList elems)
  /\ forall elems,
       _from_list_inst l rostype = Return (PyList elems)
       <-> Forall2 (fun x y => _from_inst x (list_braces_sub rostype) = Return y)
                   l elems.
Proof.
  unfold _from_list_inst, _from_list_inst_with.
  destruct l as [|x l].
  - cbn [length Nat.eqb]. split; [intros v [= <-]; eauto|].
    intros elems. split; [intros [= <-]; constructor|].
    intros H. now inversion H.
  - cbn [length Nat.eqb].
    destruct (py_in (list_braces_sub rostype) ros_primitive_types) eqn:Hp.
    + split; [intros v [= <-]; eauto|]. intros elems.
      rewrite Forall2_Return_same
        by (intros y; apply _from_inst_primitive;
            [now apply primitive_not_binary|exact Hp]).
      split; [now intros [= <-]|now intros ->].
    + destruct (mapM (fun x0 => _from_inst x0 (list_braces_sub rostype)) (x :: l))
        as [k|e] eqn:Hk; cbn [fmap outcome_fmap].
      * split; [intros v [= <-]; eauto|]. intros elems.
        rewrite <- mapM_outcome_Return, Hk.
        split; now intros [= <-].
      * split; [discriminate|]. intros elems.
        rewrite <- mapM_outcome_Return, Hk. split; discriminate.
Qed.

(** ** Binary fields never raise *)



(** A count the interpreter has no room for comes back as it is, and so does
    one that does not fit an index. *)
Example to_binary_inst_count :
  _to_binary_inst Demo.env (PyInt 3)
  = Return (PyStr ("bytearray(b'\x00\x00\x00')"))
  /\ _to_binary_inst Demo.env (PyInt (2 ^ 40)) = Return (PyInt (2 ^ 40))
  /\ _to_binary_inst Demo.env (PyInt (2 ^ 63)) = Return (PyInt (2 ^ 63))
  /\ _to_binary_inst Demo.env (PyInt (-1)) = Return (PyInt (-1)).
Proof. repeat split; vm_compute; reflexivity. Qed.

(** ** The two registries *)

Lemma _get_class_same_cache E typestring subname cache lock w1 w2 :
  cache_of cache w1 = cache_of cache w2 ->
  (_get_class E typestring subname cache lock w1).1
  = (_get_class E typestring subname cache lock w2).1.
Proof.
  intros Hc. rewrite !_get_class_unfold. cbv zeta. rewrite Hc.
  destruct (cache_of cache w2 !! typestring); [reflexivity|].
  destruct (_splittype typestring) as [[|m [|c [|? ?]]]|e]; try reflexivity.
  destruct (cache_of cache w2 !! (m +:+ "/" +:+ c)); [reflexivity|].
  now destruct (_load_class E m subname c initial_world).1.
Qed.

Lemma _get_class_other_cache E typestring subname cache lock cache' w :
  cache <> cache' ->
  cache_of cache' (_get_class E typestring subname cache lock w).2
  = cache_of cache' w.
Proof.
  intros Hne. rewrite _get_class_unfold. cbv zeta.
  destruct (cache_of cache w !! typestring);
    [cbn [snd]; now rewrite !cache_of_lock_set|].
  destruct (_splittype typestring) as [[|m [|c [|? ?]]]|e];
    try (cbn [snd]; now rewrite !cache_of_lock_set).
  destruct (cache_of cache w !! (m +:+ "/" +:+ c));
    [cbn [snd]; now rewrite !cache_of_lock_set|].
  destruct (_load_class E m subname c initial_world).1; cbn [snd].
  - rewrite cache_of_lock_set, !cache_of_setitem_ne by exact Hne.
    now rewrite cache_of_lock_set, cache_of_log_load, !cache_of_lock_set.
  - now rewrite cache_of_log_load, !cache_of_lock_set.
Qed.

(** X20.  The registry of message classes and the registry of service
    classes do not see each other: what [_get_srv_class] returns or raises for
    a string is the same after any call of [_get_msg_class] as before it, and
    the other way round, also for the same string. *)
Theorem registries_independent E typestring typestring' w :
  (_get_srv_class E typestring (_get_msg_class E typestring' w).2).1
  = (_get_srv_class E typestring w).1
  /\ (_get_msg_class E typestring (_get_srv_class E typestring' w).2).1
     = (_get_msg_class E typestring w).1.
Proof.
  unfold _get_srv_class, _get_msg_class. split.
  - apply _get_class_same_cache. now apply _get_class_other_cache.
  - apply _get_class_same_cache. now apply _get_class_other_cache.
Qed.

(** ** What serialization raises *)

Lemma _from_object_fields_Raise (good : exn -> Prop) from_attr fields :
  (forall name, good (AttributeError name)) ->
  (forall name t f e,
     (name, t) ∈ fields -> from_attr name = Some f -> f t = Raise e -> good e) ->
  forall msg e, _from_object_fields from_attr fields msg = Raise e -> good e.
Proof.
  intros Hattr. induction fields as [|[k t] fields IH]; intros Hf msg e;
    [discriminate|].
  cbn [_from_object_fields].
  destruct (from_attr k) as [f|] eqn:Hk; [|intros [= <-]; apply Hattr].
  destruct (f t) as [v|e0] eqn:Hv; cbn [mbind outcome_bind].
  - apply IH. intros name t' f' e' Hin. apply Hf. now right.
  - intros [= <-]. apply (Hf k t f); [now left|exact Hk|exact Hv].
Qed.

(** X21.  Serialization raises none of the exceptions of the module:
    whatever the value, what [extract_values] and [_from_inst] raise, from
    however deep in the value, is not [InvalidMessageException] nor any other
    of the classes the module defines.  What the conversion itself raises is
    a [TypeError] or an [AttributeError]; the statement leaves room for what
    the interpreter raises of its own. *)
Theorem serialization_raises_no_module_exception inst :
  (forall e, extract_values inst = Raise e -> is_module_exception e = false)
  /\ (forall rostype e,
        _from_inst inst rostype = Raise e -> is_module_exception e = false).
Proof.
  set (good := fun e : exn =>
                 match e with TypeError _ | AttributeError _ => True | _ => False end).
  assert (Hfrom : forall rostype e, _from_inst inst rostype = Raise e -> good e).
  { assert (Htime : forall v e,
               (secs ← getattr v "secs"; nsecs ← getattr v "nsecs";
                Return (PyDict [("secs", secs); ("nsecs", nsecs)])) = Raise e ->
               good e).
    { intros v e. destruct (getattr v "secs") as [secs|e1] eqn:H1;
        cbn [mbind outcome_bind].
      - destruct (getattr v "nsecs") as [nsecs|e2] eqn:H2;
          cbn [mbind outcome_bind]; [discriminate|].
        apply getattr_Raise in H2 as ->. now intros [= <-].
      - apply getattr_Raise in H1 as ->. now intros [= <-]. }
    assert (Hleaf : forall v,
               match v with
               | PyList _ | PyTuple _ | PyInst _ _ => False
               | _ => True
               end ->
               forall rostype e, _from_inst v rostype = Raise e -> good e).
    { intros v Hv rostype e.
      destruct v; try (now destruct Hv); cbn [_from_inst];
        (destruct (py_in rostype ros_binary_types); [now intros [= <-]|];
         destruct (py_in rostype ros_time_types); [apply Htime|];
         destruct (py_in rostype ros_primitive_types); [discriminate|];
         now intros [= <-]). }
    assert (Hseq : forall l,
               Forall (fun x => forall rostype e,
                         _from_inst x rostype = Raise e -> good e) l ->
               forall rostype e,
                 _from_list_inst_with _from_inst l rostype = Raise e -> good e).
    { intros l Hall rostype e. unfold _from_list_inst_with.
      destruct (Nat.eqb (length l) 0); [discriminate|].
      destruct (py_in (list_braces_sub rostype) ros_primitive_types);
        [discriminate|].
      induction Hall as [|x l Hx Hl IH]; [discriminate|].
      rewrite mapM_outcome_cons.
      destruct (_from_inst x (list_braces_sub rostype)) as [y|e1] eqn:Hy.
      - destruct (mapM (fun x0 => _from_inst x0 (list_braces_sub rostype)) l)
          as [k|e2]; [discriminate|]. cbn. intros [= <-]. now apply IH.
      - cbn. intros [= <-]. now apply (Hx _ _ Hy). }
    induction inst as [| | | | | |l IH|l IH|items IH|c attrs IH]
      using pyval_nested_ind; try (now apply Hleaf).
    - intros rostype e. cbn [_from_inst].
      destruct (py_in rostype ros_binary_types); [now intros [= <-]|].
      destruct (py_in rostype ros_time_types); [apply Htime|].
      destruct (py_in rostype ros_primitive_types); [discriminate|].
      now apply Hseq.
    - intros rostype e. cbn [_from_inst].
      destruct (py_in rostype ros_binary_types); [now intros [= <-]|].
      destruct (py_in rostype ros_time_types); [apply Htime|].
      destruct (py_in rostype ros_primitive_types); [discriminate|].
      now apply Hseq.
    - intros rostype e. cbn [_from_inst].
      destruct (py_in rostype ros_binary_types); [now intros [= <-]|].
      destruct (py_in rostype ros_time_types); [apply Htime|].
      destruct (py_in rostype ros_primitive_types); [discriminate|].
      unfold _from_object_inst_with. cbn [attr__slots__ attr__slot_types].
      destruct (_slot_types c) as [slot_types|]; cbn [mbind outcome_bind];
        [|now intros [= <-]].
      destruct (_from_object_fields _ (zip (__slots__ c) slot_types) [])
        as [msg|e0] eqn:Hfields; [discriminate|].
      intros [= <-].
      apply (_from_object_fields_Raise good) in Hfields; [exact Hfields|easy|].
      intros name t f e' _ Hf Hr. rewrite assoc_map in Hf.
      destruct (assoc name attrs) as [a|] eqn:Ha; [|discriminate].
      injection Hf as <-. apply assoc_Some_elem_of in Ha.
      rewrite Forall_forall in IH. apply (IH _ Ha t e' Hr). }
  assert (Hgood : forall e, good e -> is_module_exception e = false).
  { intros e. now destruct e. }
  split; [|intros rostype e He; apply Hgood; now apply (Hfrom rostype)].
  intros e He. apply Hgood. revert He. unfold extract_values.
  destruct (getattr__type inst) as [rostype|]; [apply Hfrom|].
  cbn. now intros [= <-].
Qed.
